(** * RecursiveHyperSpace: folding extra dimensions into a clamped 3D path

    A shallow embedding of [src/__main__.py] (class [RecursiveHyperSpace],
    without its plotting method [draw]) and the proofs of the properties its
    specification states about it.

    Numbers.  The program computes on NumPy [float64] values.  The embedding
    idealises them as the real numbers of the Standard Library: [cos], [sin]
    and [sqrt] are the real functions, and rounding, overflow and NaN are
    outside the model.  The one operation that has no real value, a division
    by zero, is kept observable: [checked_div] reports it as [ZeroDivision]
    (NumPy would warn and go on with an infinity or a NaN).
    Two places where the idealisation hides what the program does are
    modelled beside it: the clamp on binary64 values ([clamp_f64], on the
    kernel's primitive floats), and the conversion of the Python numbers of
    [coords] to float64, which raises [OverflowError] on an int beyond the
    float64 range ([add_point_py]).

    Effects.  [add_point] mutates [self.points_data] and
    [self.max_dims_used] and prints; the embedding passes the mutable part of
    the object explicitly ([HyperSpace]) and returns what was printed as a
    list of [notice]s. *)

From Stdlib Require Import PrimInt63 PrimFloat.
From Stdlib Require Import Reals Lra Psatz.
From Stdlib Require Import String List ZArith Lia Bool.
From Stdlib Require Import Decimal DecimalString.
Import ListNotations.

Local Open Scope R_scope.

(** ** Python values *)

Module Py.

(** [l[:n]]: a negative [n] counts from the end of the list. *)
Definition slice_to {A : Type} (l : list A) (n : Z) : list A :=
  if (n <? 0)%Z
  then firstn (length l - Z.to_nat (- n)) l
  else firstn (Z.to_nat n) l.

(** [f"{n}"] for a non-negative integer. *)
Definition str (n : nat) : string :=
  NilEmpty.string_of_uint (Nat.to_uint n).

(** [np.deg2rad]. *)
Definition deg2rad (deg : R) : R := deg * (PI / 180).

End Py.

(** ** Errors *)

Inductive error : Type :=
| ZeroDivision.

Inductive result (A : Type) : Type :=
| Ok (a : A)
| Err (e : error).

Arguments Ok {A} a.
Arguments Err {A} e.

Definition bind {A B : Type} (c : result A) (k : A -> result B) : result B :=
  match c with
  | Ok a => k a
  | Err e => Err e
  end.

Notation "x <- c ;; k" := (bind c (fun x => k))
  (at level 61, c at next level, right associativity).
Notation "' p <- c ;; k" := (bind c (fun x => let 'p := x in k))
  (at level 61, p pattern, c at next level, right associativity).

(** [a / b] on reals, where it has a value. *)
Definition checked_div (a b : R) : result R :=
  if Req_dec_T b 0 then Err ZeroDivision else Ok (a / b).

(** ** Data *)

(** The parameters [__init__] stores and never changes. *)
Record Config : Type := mkConfig {
  limit_dims : Z;
  h : R;
  base_slope : R;
  slope_growth : R;
  angle_step : R
}.

(** [RecursiveHyperSpace()] with the default arguments of [__init__]. *)
Definition default_config : Config :=
  {| limit_dims := 6; h := 12; base_slope := 25 / 100;
     slope_growth := 15 / 100; angle_step := 45 |}.

(** A three-element [np.array] of floats. *)
Record Vec3 : Type := mkVec3 { vx : R; vy : R; vz : R }.

Definition vadd (a b : Vec3) : Vec3 :=
  {| vx := vx a + vx b; vy := vy a + vy b; vz := vz a + vz b |}.

(** [{'pos': ..., 'label': ...}] *)
Record TraceStep : Type := mkTraceStep { pos : Vec3; step_label : string }.

(** [{'start': ..., 'end': ..., 'name': ...}] *)
Record VectorLine : Type := mkVectorLine {
  v_start : Vec3;
  v_end : Vec3;
  v_name : string
}.

(** [{'label': ..., 'trace': ..., 'vectors': ...}] *)
Record PointData : Type := mkPointData {
  label : string;
  trace : list TraceStep;
  vectors : list VectorLine
}.

(** The mutable attributes of the object. *)
Record HyperSpace : Type := mkHyperSpace {
  points_data : list PointData;
  max_dims_used : nat
}.

(** The state [__init__] sets up. *)
Definition init_space : HyperSpace :=
  {| points_data := []; max_dims_used := 0 |}.

(** What [add_point] prints: the two-line truncation warning and the
    too-small error. *)
Inductive notice : Type :=
| TruncationWarning (point_label : string) (input_dim_count : nat) (limit : Z)
| TooSmallError (point_label : string).

(** ** Operations *)

(** [_calculate_cone_slope] *)
Definition _calculate_cone_slope (cfg : Config) (dim_index_offset : Z) : R :=
  base_slope cfg + slope_growth cfg * IZR (dim_index_offset + 1).

(** The radius [np.sqrt(p[1]**2 + p[2]**2)] of a position around the x axis. *)
Definition radius (p : Vec3) : R := sqrt ((vy p)² + (vz p)²).

(** [p[1] *= scale; p[2] *= scale] *)
Definition scale_yz (p : Vec3) (scale : R) : Vec3 :=
  {| vx := vx p; vy := vy p * scale; vz := vz p * scale |}.

(** Lines 65-75 of [add_point]: the cone of dimension [i] and the clamp of
    the candidate position onto it.  The string is [status]. *)
Definition clamp (cfg : Config) (i : nat) (candidate_pos : Vec3)
  : result (Vec3 * string) :=
  let this_cone_slope := _calculate_cone_slope cfg (Z.of_nat i) in
  let current_x := vx candidate_pos in
  let max_radius := Rabs current_x * this_cone_slope in
  let current_r := radius candidate_pos in
  if Rgt_dec current_r max_radius then
    scale <- checked_div max_radius current_r ;;
    Ok (scale_yz candidate_pos scale, "(Clamped)"%string)
  else Ok (candidate_pos, ""%string).

(** Lines 54-63: the candidate position of dimension [i]. *)
Definition candidate (cfg : Config) (i : nat) (current_pos : Vec3)
  (magnitude : R) : Vec3 :=
  let deg_angle := 90 + angle_step cfg * INR i in
  let rad_angle := Py.deg2rad deg_angle in
  let dy := magnitude * cos rad_angle in
  let dz := magnitude * sin rad_angle in
  let vector := {| vx := 0; vy := dy; vz := dz |} in
  let prev_pos := current_pos in
  vadd prev_pos vector.

(** The [for i, magnitude in enumerate(extra_dims)] loop of [add_point],
    from index [i] and position [current_pos] on: the trace steps and the
    vector lines it appends, in order. *)
Fixpoint fold_dims (cfg : Config) (i : nat) (current_pos : Vec3)
  (extra_dims : list R) : result (list TraceStep * list VectorLine) :=
  match extra_dims with
  | [] => Ok ([], [])
  | magnitude :: rest =>
      let dim_id := (4 + i)%nat in
      let prev_pos := current_pos in
      let candidate_pos := candidate cfg i current_pos magnitude in
      '(new_pos, status) <- clamp cfg i candidate_pos ;;
      '(trace_steps, vector_lines) <- fold_dims cfg (S i) new_pos rest ;;
      Ok ({| pos := new_pos;
             step_label := ("D" ++ Py.str dim_id ++ " " ++ status)%string |}
            :: trace_steps,
          {| v_start := prev_pos;
             v_end := new_pos;
             v_name := ("D" ++ Py.str dim_id ++ " Vector")%string |}
            :: vector_lines)
  end.

(** Lines 40-41 and 47-90: the dict [add_point] appends for coordinates that
    passed the validation. *)
Definition build_point (cfg : Config) (coords : list R) (label : string)
  : result PointData :=
  let base_pos :=
    {| vx := nth 0 coords 0; vy := nth 1 coords 0; vz := nth 2 coords 0 |} in
  let extra_dims := skipn 3 coords in
  let current_pos := base_pos in
  '(trace_steps, vector_lines) <- fold_dims cfg 0 current_pos extra_dims ;;
  Ok {| label := label;
        trace := {| pos := current_pos;
                    step_label := (label ++ " (3D)")%string |} :: trace_steps;
        vectors := vector_lines |}.

(** [add_point] *)
Definition add_point (cfg : Config) (self : HyperSpace) (coords : list R)
  (label : string) : result (HyperSpace * list notice) :=
  let input_dim_count := length coords in
  let '(coords, out) :=
    if (Z.of_nat input_dim_count >? limit_dims cfg)%Z
    then (Py.slice_to coords (limit_dims cfg),
          [TruncationWarning label input_dim_count (limit_dims cfg)])
    else (coords, []) in
  if (length coords <? 3)%nat then Ok (self, out ++ [TooSmallError label])
  else
    let extra_dims := skipn 3 coords in
    let max_dims_used' :=
      if (max_dims_used self <? length extra_dims)%nat
      then length extra_dims
      else max_dims_used self in
    point <- build_point cfg coords label ;;
    Ok ({| points_data := points_data self ++ [point];
           max_dims_used := max_dims_used' |}, out).

(** The label [f"BatchPoint_{i+1}"] of entry [i] of a batch. *)
Definition batch_label (i : nat) : string :=
  ("BatchPoint_" ++ Py.str (i + 1))%string.

(** The loop of [add_points_from_list], from index [i] on. *)
Fixpoint add_points_from (cfg : Config) (self : HyperSpace) (i : nat)
  (list_of_points : list (list R)) : result (HyperSpace * list notice) :=
  match list_of_points with
  | [] => Ok (self, [])
  | p_coords :: rest =>
      '(self1, out1) <- add_point cfg self p_coords (batch_label i) ;;
      '(self2, out2) <- add_points_from cfg self1 (S i) rest ;;
      Ok (self2, out1 ++ out2)
  end.

(** [add_points_from_list] *)
Definition add_points_from_list (cfg : Config) (self : HyperSpace)
  (list_of_points : list (list R)) : result (HyperSpace * list notice) :=
  add_points_from cfg self 0 list_of_points.

(** ** Notions the statements use *)

(** The slopes of a configuration are positive, as its data model asks. *)
Definition positive_slopes (cfg : Config) : Prop :=
  0 < base_slope cfg /\ 0 < slope_growth cfg.

(** [abs(p[0]) * cone_slope(i)]: the radius of the cone of dimension [i] at
    the axial position of [p]. *)
Definition max_radius (cfg : Config) (i : nat) (p : Vec3) : R :=
  Rabs (vx p) * _calculate_cone_slope cfg (Z.of_nat i).

(** The coordinates [add_point] goes on with after lines 28-32. *)
Definition truncated (cfg : Config) (coords : list R) : list R :=
  if (Z.of_nat (length coords) >? limit_dims cfg)%Z
  then Py.slice_to coords (limit_dims cfg)
  else coords.

(** The coordinates pass the check of line 35. *)
Definition accepted (cfg : Config) (coords : list R) : bool :=
  negb (length (truncated cfg coords) <? 3)%nat.

(** What a call of [add_point] prints. *)
Definition notices (cfg : Config) (coords : list R) (label : string)
  : list notice :=
  (if (Z.of_nat (length coords) >? limit_dims cfg)%Z
   then [TruncationWarning label (length coords) (limit_dims cfg)]
   else [])
  ++ (if accepted cfg coords then [] else [TooSmallError label]).

(** The collection's [add] as the specification words it: append the point
    and raise the maximum to the number of its folds. *)
Definition spec_add (self : HyperSpace) (point : PointData) : HyperSpace :=
  {| points_data := points_data self ++ [point];
     max_dims_used :=
       Nat.max (max_dims_used self) (length (trace point) - 1) |}.

(** The largest number of folds among points. *)
Definition max_folds (points : list PointData) : nat :=
  fold_right (fun p m => Nat.max (length (trace p) - 1) m) 0%nat points.

(** [enumerate(l, start=i)] *)
Definition enumerate_from {A : Type} (i : nat) (l : list A) : list (nat * A) :=
  combine (seq i (length l)) l.

(** An operation on the collection, and runs of operations. *)
Inductive op : Type :=
| OpAddPoint (coords : list R) (label : string)
| OpAddBatch (list_of_points : list (list R)).

Definition step (cfg : Config) (self : HyperSpace) (o : op)
  : result HyperSpace :=
  match o with
  | OpAddPoint coords label =>
      '(self1, _) <- add_point cfg self coords label ;; Ok self1
  | OpAddBatch list_of_points =>
      '(self1, _) <- add_points_from_list cfg self list_of_points ;; Ok self1
  end.

Fixpoint run (cfg : Config) (self : HyperSpace) (ops : list op)
  : result HyperSpace :=
  match ops with
  | [] => Ok self
  | o :: rest => self1 <- step cfg self o ;; run cfg self1 rest
  end.

(** The invariant of the collection. *)
Definition max_is_max_folds (self : HyperSpace) : Prop :=
  max_dims_used self = max_folds (points_data self).

(** The batch as the specification words it: one call of the projector per
    entry, in order, under the label of the entry's ordinal, the outcomes
    accumulated. *)
Definition spec_add_batch (cfg : Config) (self : HyperSpace)
  (list_of_points : list (list R)) : result (HyperSpace * list notice) :=
  fold_left
    (fun acc ic =>
       '(s, out) <- acc ;;
       '(s', out') <- add_point cfg s (snd ic) (batch_label (fst ic)) ;;
       Ok (s', out ++ out'))
    (enumerate_from 0 list_of_points)
    (Ok (self, [])).

(** The configuration and the inputs of the script's [__main__] block. *)
Definition demo_config : Config :=
  {| limit_dims := 5; h := 12; base_slope := 25 / 100;
     slope_growth := 15 / 100; angle_step := 45 |}.

Definition valid_point : list R := [8; 0; 0; 2; 20].
Definition mirrored_point : list R := [8; 0; 0; 2; -20].
Definition overloaded_point : list R := [8; 0; 0; 2; 2; 99; 99].

(** A configuration with room for four extra dimensions, and points with
    2, 0, 4 and 1 of them. *)
Definition wide_config : Config :=
  {| limit_dims := 7; h := 12; base_slope := 25 / 100;
     slope_growth := 15 / 100; angle_step := 45 |}.

Definition aggregation_run : list op :=
  [OpAddPoint [1; 1; 1; 1; 1] "a"; OpAddPoint [1; 1; 1] "b";
   OpAddPoint [1; 1; 1; 1; 1; 1; 1] "c"; OpAddPoint [1; 1; 1; 1] "d"].

(** A configuration outside the data model: a negative slope. *)
Definition inverted_config : Config :=
  {| limit_dims := 6; h := 12; base_slope := -1;
     slope_growth := 0; angle_step := 45 |}.

(** Further inputs: too small, and a bare 3D position. *)
Definition small_point : list R := [1; 2].
Definition bare_point : list R := [8; 0; 0].

(** ** The figure [draw] builds *)

Module Np.

(** A two-dimensional array, by rows. *)
Definition array2 : Type := list (list R).

(** [np.linspace(start, stop, num)]: [arange(num) * step + start] with
    [step = (stop - start) / (num - 1)]. *)
Definition linspace (start stop : R) (num : nat) : list R :=
  map (fun k => INR k * ((stop - start) / INR (num - 1)) + start)
      (seq 0 num).

(** [np.meshgrid(x, y)]: both arrays have one row per element of [y]. *)
Definition meshgrid (x y : list R) : array2 * array2 :=
  (map (fun _ => x) y, map (fun yv => map (fun _ => yv) x) y).

(** A function applied to every element ([np.cos(a)], [a * c]). *)
Definition map2 (f : R -> R) (a : array2) : array2 := map (map f) a.

(** An operation applied element by element to arrays of one shape. *)
Definition zip2 (f : R -> R -> R) (a b : array2) : array2 :=
  map (fun rows => map (fun xy => f (fst xy) (snd xy))
                       (combine (fst rows) (snd rows)))
      (combine a b).

(** [a[r][c]] *)
Definition get (a : array2) (r c : nat) : R := nth c (nth r a []) 0.

(** The shape of an array: [rows] rows of [cols] elements. *)
Definition shaped (rows cols : nat) (a : array2) : Prop :=
  length a = rows /\ Forall (fun row => length row = cols) a.

End Np.

(** [f"{n}"] for an integer. *)
Definition str_int (n : Z) : string := NilEmpty.string_of_int (Z.to_int n).

(** [l[-1]], where it exists. *)
Fixpoint last_item {A : Type} (l : list A) : option A :=
  match l with
  | [] => None
  | [a] => Some a
  | _ :: rest => last_item rest
  end.

(** [line=dict(width=...)] and [marker=dict(size=..., symbol=...)]. *)
Inductive ScatterStyle : Type :=
| LineStyle (width : nat)
| MarkerStyle (size : nat) (symbol : string).

(** The traces [draw] adds, with the arguments it passes. *)
Inductive PlotTrace : Type :=
| Surface (x y z : Np.array2) (opacity : R) (colorscale : string)
    (showscale : bool) (name : string)
| Scatter3d (x y z : list R) (mode : string) (style : ScatterStyle)
    (name : string).

Record Axis : Type := mkAxis { axis_range : R * R; axis_title : string }.

(** The arguments of [fig.update_layout]. *)
Record Layout : Type := mkLayout {
  layout_title : string;
  xaxis : Axis;
  yaxis : Axis;
  zaxis : Axis;
  aspectmode : string;
  margin_l : nat;
  margin_r : nat;
  margin_b : nat;
  margin_t : nat
}.

Record Figure : Type := mkFigure {
  fig_data : list PlotTrace;
  fig_layout : Layout
}.

(** What [draw] leaves behind: the figure written to [html_file] and the
    line printed. *)
Record Drawing : Type := mkDrawing {
  figure : Figure;
  html_file : string;
  auto_open : bool;
  printed : string
}.

Definition colors : list string :=
  ["Reds"; "Greens"; "Purples"; "Oranges"; "Teal"]%string.

(** Lines 104-111 of [draw]: the surface of the base cone. *)
Definition base_surface (cfg : Config) (U V : Np.array2) : PlotTrace :=
  let R3 := Np.map2 (fun x => x * base_slope cfg) V in
  let Y3 := Np.zip2 Rmult R3 (Np.map2 cos U) in
  let Z3 := Np.zip2 Rmult R3 (Np.map2 sin U) in
  Surface V Y3 Z3 (1 / 10) "Blues" false "3D Base".

(** Lines 116-124: the surface of the cone of extra dimension [i].  The
    index [i % len(colors)] is always within [colors]. *)
Definition cone_surface (cfg : Config) (U V : Np.array2) (i : nat)
  : PlotTrace :=
  let slope := _calculate_cone_slope cfg (Z.of_nat i) in
  let Rc := Np.map2 (fun x => x * slope) V in
  let Yc := Np.zip2 Rmult Rc (Np.map2 cos U) in
  let Zc := Np.zip2 Rmult Rc (Np.map2 sin U) in
  let c_name := nth (i mod length colors) colors ""%string in
  Surface V Yc Zc (5 / 100) c_name false ("Cone D" ++ Py.str (4 + i))%string.

(** Lines 129-135: the line of one vector of a point. *)
Definition vector_trace (pt : PointData) (vec : VectorLine) : PlotTrace :=
  Scatter3d [vx (v_start vec); vx (v_end vec)]
            [vy (v_start vec); vy (v_end vec)]
            [vz (v_start vec); vz (v_end vec)]
            "lines" (LineStyle 5) (label pt ++ " Path")%string.

(** Lines 128-142: the traces of one point, its vectors and the marker at
    the last position of its trace.  [None] is the [IndexError] of
    [pt['trace'][-1]] on an empty trace. *)
Definition point_traces (pt : PointData) : option (list PlotTrace) :=
  let lines := map (vector_trace pt) (vectors pt) in
  match last_item (trace pt) with
  | None => None
  | Some step =>
      let final_pos := pos step in
      Some (lines
            ++ [Scatter3d [vx final_pos] [vy final_pos] [vz final_pos]
                          "markers" (MarkerStyle 8 "diamond")
                          (label pt ++ " Final")%string])
  end.

(** The loop of line 127 over the points. *)
Fixpoint points_traces (points : list PointData) : option (list PlotTrace) :=
  match points with
  | [] => Some []
  | pt :: rest =>
      match point_traces pt with
      | None => None
      | Some traces =>
          match points_traces rest with
          | None => None
          | Some more => Some (traces ++ more)
          end
      end
  end.

(** [draw] *)
Definition draw (cfg : Config) (self : HyperSpace) : option Drawing :=
  let u := Np.linspace 0 (2 * PI) 60 in
  let v := Np.linspace 0 (h cfg) 40 in
  let '(U, V) := Np.meshgrid u v in
  let cones := map (cone_surface cfg U V) (seq 0 (max_dims_used self)) in
  match points_traces (points_data self) with
  | None => None
  | Some traces =>
      Some {| figure :=
                {| fig_data := base_surface cfg U V :: cones ++ traces;
                   fig_layout :=
                     {| layout_title :=
                          ("System Limit: " ++ str_int (limit_dims cfg)
                           ++ " Dimensions")%string;
                        xaxis := {| axis_range := (0, h cfg);
                                    axis_title := "X" |};
                        yaxis := {| axis_range := (-10, 10);
                                    axis_title := "Y" |};
                        zaxis := {| axis_range := (-10, 10);
                                    axis_title := "Z" |};
                        aspectmode := "data";
                        margin_l := 0; margin_r := 0; margin_b := 0;
                        margin_t := 40 |} |};
              html_file := "safe_hyperspace.html";
              auto_open := true;
              printed := "Drawing generated." |}
  end.

(** ** Further notions *)

(** The Euclidean distance of two positions. *)
Definition dist (a b : Vec3) : R :=
  sqrt ((vx b - vx a)² + (vy b - vy a)² + (vz b - vz a)²).

(** Step [s] is what the loop appends for magnitude [m] at index [k] from
    the position [prev]. *)
Definition folds_to (cfg : Config) (k : nat) (prev : Vec3) (m : R)
  (s : TraceStep) : Prop :=
  exists status,
    clamp cfg k (candidate cfg k prev m) = Ok (pos s, status)
    /\ step_label s = ("D" ++ Py.str (4 + k) ++ " " ++ status)%string.

(** A point [add_point] builds from some accepted input. *)
Definition built (cfg : Config) (point : PointData) : Prop :=
  exists coords label,
    (3 <= length (truncated cfg coords))%nat
    /\ build_point cfg (truncated cfg coords) label = Ok point.

(** An input with a single fold. *)
Definition short_point : list R := [8; 0; 0; 2].

Definition short_point_built : PointData :=
  {| label := "P";
     trace := [ {| pos := {| vx := 8; vy := 0; vz := 0 |};
                   step_label := "P (3D)" |};
                {| pos := {| vx := 8; vy := 0; vz := 2 |};
                   step_label := "D4 " |} ];
     vectors := [ {| v_start := {| vx := 8; vy := 0; vz := 0 |};
                     v_end := {| vx := 8; vy := 0; vz := 2 |};
                     v_name := "D4 Vector" |} ] |}.

(** A configuration with a negative limit, a limit below three, and an
    input one longer than [short_point]. *)
Definition negative_limit_config : Config :=
  {| limit_dims := -1; h := 12; base_slope := 25 / 100;
     slope_growth := 15 / 100; angle_step := 45 |}.

Definition flat_config : Config :=
  {| limit_dims := 2; h := 12; base_slope := 25 / 100;
     slope_growth := 15 / 100; angle_step := 45 |}.

Definition long_point : list R := [8; 0; 0; 2; 7].

(** An input whose second fold has magnitude zero. *)
Definition resting_point : list R := [8; 0; 0; 2; 0].

(** ** The clamp on float64 values *)

(** A three-element array of binary64 values. *)
Record Vec3f : Type := mkVec3f { fx : float; fy : float; fz : float }.

(** [_calculate_cone_slope] as Python evaluates it on floats: the index plus
    one is converted to a float, the product and the sum are rounded. *)
Definition cone_slope_f64 (base_slope slope_growth : float)
  (dim_index_offset : PrimInt63.int) : float :=
  (base_slope
   + slope_growth * of_uint63 (PrimInt63.add dim_index_offset 1%uint63))%float.

(** Lines 66-75 of [add_point] on binary64 values, each operation rounded
    as IEEE 754 rounds it; a square [p ** 2] is taken as the rounded product
    [p * p].  A division by zero gives an infinity or a NaN, as in NumPy. *)
Definition clamp_f64 (this_cone_slope : float) (candidate_pos : Vec3f)
  : Vec3f * string :=
  let current_x := fx candidate_pos in
  let max_radius := (PrimFloat.abs current_x * this_cone_slope)%float in
  let current_r :=
    PrimFloat.sqrt (fy candidate_pos * fy candidate_pos
                    + fz candidate_pos * fz candidate_pos)%float in
  if (max_radius <? current_r)%float then
    let scale := (max_radius / current_r)%float in
    ({| fx := fx candidate_pos;
        fy := (fy candidate_pos * scale)%float;
        fz := (fz candidate_pos * scale)%float |}, "(Clamped)"%string)
  else (candidate_pos, ""%string).

(** The slope of the first cone under the default [base_slope = 0.25] and
    [slope_growth = 0.15] (the float64 nearest to 0.15). *)
Definition default_slope_f64 : float :=
  cone_slope_f64 0.25%float 0x1.3333333333333p-3%float 0%uint63.

(** ** Python numbers *)

(** An element of [coords]: a Python int or a float. *)
Inductive pynum : Type :=
| PyInt (n : Z)
| PyFloat (x : R).

(** The real a number stands for. *)
Definition value (v : pynum) : R :=
  match v with
  | PyInt n => IZR n
  | PyFloat x => x
  end.

Inductive exception : Type :=
| OverflowError.

(** The least absolute value of an int that does not convert to a float:
    it would round to [2 ** 1024]. *)
Definition float_overflow_bound : Z := (2 ^ 1024 - 2 ^ 970)%Z.

(** The float64 value NumPy takes for a number at lines 40 and 58; [None] is
    the [OverflowError] of an int too large to convert. *)
Definition to_float64 (v : pynum) : option R :=
  match v with
  | PyFloat x => Some x
  | PyInt n =>
      if (Z.abs n <? float_overflow_bound)%Z then Some (IZR n) else None
  end.

(** What the loop of [add_point] comes to: its trace steps and vector
    lines, an exception, or a value outside the reals. *)
Inductive fold_outcome : Type :=
| Folded (trace_steps : list TraceStep) (vector_lines : list VectorLine)
| FoldRaised (e : exception)
| FoldUndefined (e : error).

(** The loop of lines 53-84 on Python numbers: line 58 converts the
    magnitude before anything else. *)
Fixpoint fold_dims_py (cfg : Config) (i : nat) (current_pos : Vec3)
  (extra_dims : list pynum) : fold_outcome :=
  match extra_dims with
  | [] => Folded [] []
  | magnitude :: rest =>
      match to_float64 magnitude with
      | None => FoldRaised OverflowError
      | Some m =>
          let dim_id := (4 + i)%nat in
          let prev_pos := current_pos in
          match clamp cfg i (candidate cfg i current_pos m) with
          | Err e => FoldUndefined e
          | Ok (new_pos, status) =>
              match fold_dims_py cfg (S i) new_pos rest with
              | Folded trace_steps vector_lines =>
                  Folded
                    ({| pos := new_pos;
                        step_label :=
                          ("D" ++ Py.str dim_id ++ " " ++ status)%string |}
                     :: trace_steps)
                    ({| v_start := prev_pos;
                        v_end := new_pos;
                        v_name :=
                          ("D" ++ Py.str dim_id ++ " Vector")%string |}
                     :: vector_lines)
              | other => other
              end
          end
      end
  end.

(** What a call of [add_point] comes to: it returns, or it raises and
    leaves the object as it was at that line, or a value leaves the reals. *)
Inductive outcome : Type :=
| Returned (self : HyperSpace) (out : list notice)
| Raised (e : exception) (self : HyperSpace) (out : list notice)
| Undefined (e : error).

(** [add_point] on a list of Python numbers.  Line 40 converts the three
    base coordinates, before [max_dims_used] is touched; the loop converts
    the magnitudes one by one, after it. *)
Definition add_point_py (cfg : Config) (self : HyperSpace)
  (coords : list pynum) (label : string) : outcome :=
  let input_dim_count := length coords in
  let '(coords, out) :=
    if (Z.of_nat input_dim_count >? limit_dims cfg)%Z
    then (Py.slice_to coords (limit_dims cfg),
          [TruncationWarning label input_dim_count (limit_dims cfg)])
    else (coords, []) in
  if (length coords <? 3)%nat then Returned self (out ++ [TooSmallError label])
  else
    match to_float64 (nth 0 coords (PyInt 0)),
          to_float64 (nth 1 coords (PyInt 0)),
          to_float64 (nth 2 coords (PyInt 0)) with
    | Some x, Some y, Some z =>
        let base_pos := {| vx := x; vy := y; vz := z |} in
        let extra_dims := skipn 3 coords in
        let max_dims_used' :=
          if (max_dims_used self <? length extra_dims)%nat
          then length extra_dims
          else max_dims_used self in
        let current_pos := base_pos in
        match fold_dims_py cfg 0 current_pos extra_dims with
        | Folded trace_steps vector_lines =>
            Returned
              {| points_data :=
                   points_data self
                   ++ [ {| label := label;
                           trace :=
                             {| pos := current_pos;
                                step_label := (label ++ " (3D)")%string |}
                             :: trace_steps;
                           vectors := vector_lines |} ];
                 max_dims_used := max_dims_used' |}
              out
        | FoldRaised e =>
            Raised e {| points_data := points_data self;
                        max_dims_used := max_dims_used' |} out
        | FoldUndefined e => Undefined e
        end
    | _, _, _ => Raised OverflowError self out
    end.

(** The coordinates [add_point_py] goes on with after lines 28-32. *)
Definition kept (cfg : Config) (coords : list pynum) : list pynum :=
  if (Z.of_nat (length coords) >? limit_dims cfg)%Z
  then Py.slice_to coords (limit_dims cfg)
  else coords.

(** An accepted input whose one magnitude is an int beyond the float64
    range, and one all of whose numbers are within it. *)
Definition huge_point : list pynum :=
  [PyInt 8; PyInt 0; PyInt 0; PyInt (10 ^ 400)].

Definition mixed_point : list pynum :=
  [PyInt 8; PyFloat 0; PyInt 0; PyInt 0; PyInt (-20)].

(** ** The cone slope *)

Lemma default_slopes_positive : positive_slopes default_config.
Proof. split; simpl; lra. Qed.

Lemma cone_slope_pos (cfg : Config) (i : nat) :
  positive_slopes cfg -> 0 < _calculate_cone_slope cfg (Z.of_nat i).
Proof.
  intros [Hb Hg]. unfold _calculate_cone_slope.
  assert (0 < IZR (Z.of_nat i + 1)) by (apply IZR_lt; lia).
  nra.
Qed.

(** C2. For every integer index [i] (in particular every [i >= 0]) the cone
    slope function returns exactly [base_slope + slope_growth * (i + 1)], and
    for a positive [slope_growth] it is strictly increasing in [i]. *)
Theorem cone_slope_formula_increasing (cfg : Config) :
  (forall i : Z,
      _calculate_cone_slope cfg i
      = base_slope cfg + slope_growth cfg * (IZR i + 1))
  /\ (0 < slope_growth cfg ->
      forall i j : Z, (i < j)%Z ->
        _calculate_cone_slope cfg i < _calculate_cone_slope cfg j).
Proof.
  split.
  - intro i. unfold _calculate_cone_slope. now rewrite plus_IZR.
  - intros Hg i j Hij. unfold _calculate_cone_slope.
    apply Rplus_lt_compat_l, Rmult_lt_compat_l; [exact Hg|].
    apply IZR_lt. lia.
Qed.

Lemma cone_slope_formula_increasing_witness :
  0 < slope_growth default_config
  /\ _calculate_cone_slope default_config 0
     < _calculate_cone_slope default_config 1.
Proof.
  assert (Hg : 0 < slope_growth default_config) by (simpl; lra).
  split; [exact Hg|].
  apply (proj2 (cone_slope_formula_increasing default_config) Hg 0%Z 1%Z).
  lia.
Defined.

Example cone_slope_default_0 : _calculate_cone_slope default_config 0 = 4 / 10.
Proof. unfold _calculate_cone_slope; simpl; lra. Qed.

(** ** The clamp *)

Lemma radius_nonneg (p : Vec3) : 0 <= radius p.
Proof. apply sqrt_pos. Qed.

Lemma radius_scale_yz (p : Vec3) (s : R) :
  radius (scale_yz p s) = Rabs s * radius p.
Proof.
  unfold radius, scale_yz; simpl.
  replace ((vy p * s)² + (vz p * s)²) with (s² * ((vy p)² + (vz p)²))
    by (unfold Rsqr; ring).
  rewrite sqrt_mult.
  - now rewrite sqrt_Rsqr_abs.
  - apply Rle_0_sqr.
  - apply Rplus_le_le_0_compat; apply Rle_0_sqr.
Qed.

Lemma max_radius_nonneg (cfg : Config) (i : nat) (p : Vec3) :
  positive_slopes cfg -> 0 <= max_radius cfg i p.
Proof.
  intro Hs. unfold max_radius.
  apply Rmult_le_pos; [apply Rabs_pos|].
  left. now apply cone_slope_pos.
Qed.

(** The branch not taken: the position and an empty status. *)
Lemma clamp_kept (cfg : Config) (i : nat) (c : Vec3) :
  radius c <= max_radius cfg i c -> clamp cfg i c = Ok (c, ""%string).
Proof.
  intro Hle. unfold clamp. fold (max_radius cfg i c).
  destruct (Rgt_dec (radius c) (max_radius cfg i c)) as [Hgt|_];
    [unfold Rgt in Hgt; lra | reflexivity].
Qed.

(** The branch taken, with a radius that can be divided by. *)
Lemma clamp_fired (cfg : Config) (i : nat) (c : Vec3) :
  max_radius cfg i c < radius c -> radius c <> 0 ->
  clamp cfg i c
  = Ok (scale_yz c (max_radius cfg i c / radius c), "(Clamped)"%string).
Proof.
  intros Hlt Hnz. unfold clamp. fold (max_radius cfg i c).
  destruct (Rgt_dec (radius c) (max_radius cfg i c)) as [_|Hn];
    [|unfold Rgt in Hn; lra].
  unfold checked_div.
  destruct (Req_dec_T (radius c) 0) as [E|_]; [contradiction|reflexivity].
Qed.

(** The branch taken on a zero radius: the division has no value. *)
Lemma clamp_zero_radius (cfg : Config) (i : nat) (c : Vec3) :
  max_radius cfg i c < radius c -> radius c = 0 ->
  clamp cfg i c = Err ZeroDivision.
Proof.
  intros Hlt Hz. unfold clamp. fold (max_radius cfg i c).
  destruct (Rgt_dec (radius c) (max_radius cfg i c)) as [_|Hn];
    [|unfold Rgt in Hn; lra].
  unfold checked_div.
  destruct (Req_dec_T (radius c) 0) as [_|E]; [reflexivity|contradiction].
Qed.

(** Why the slopes have to be positive: under a negative slope a candidate
    on the axis exceeds its (negative) [max_radius] with a radius of zero. *)
Example negative_slope_divides_by_zero :
  clamp inverted_config 0 {| vx := 1; vy := 0; vz := 0 |} = Err ZeroDivision.
Proof.
  assert (Hr : radius {| vx := 1; vy := 0; vz := 0 |} = 0).
  { unfold radius; simpl.
    replace (0² + 0²) with 0 by (unfold Rsqr; ring). apply sqrt_0. }
  apply clamp_zero_radius; [|exact Hr].
  rewrite Hr. unfold max_radius, _calculate_cone_slope; simpl.
  rewrite Rabs_pos_eq by lra. lra.
Qed.

(** A clamped position lies on the cone. *)
Lemma radius_clamped (cfg : Config) (i : nat) (c : Vec3) :
  positive_slopes cfg -> max_radius cfg i c < radius c ->
  radius (scale_yz c (max_radius cfg i c / radius c)) = max_radius cfg i c.
Proof.
  intros Hs Hlt.
  pose proof (max_radius_nonneg cfg i c Hs) as Hm.
  rewrite radius_scale_yz, Rabs_pos_eq.
  - field. lra.
  - apply Rmult_le_pos; [exact Hm|]. left. apply Rinv_0_lt_compat. lra.
Qed.

Lemma max_radius_scale_yz (cfg : Config) (i : nat) (c : Vec3) (s : R) :
  max_radius cfg i (scale_yz c s) = max_radius cfg i c.
Proof. reflexivity. Qed.

(** With positive slopes the clamp always has a value, and it is one of the
    two branches. *)
Lemma clamp_cases (cfg : Config) (i : nat) (c : Vec3) :
  positive_slopes cfg ->
  (radius c <= max_radius cfg i c /\ clamp cfg i c = Ok (c, ""%string))
  \/ (max_radius cfg i c < radius c /\ 0 < radius c
      /\ clamp cfg i c
         = Ok (scale_yz c (max_radius cfg i c / radius c),
               "(Clamped)"%string)).
Proof.
  intro Hs.
  destruct (Rle_lt_dec (radius c) (max_radius cfg i c)) as [Hle|Hlt].
  - left. split; [exact Hle | now apply clamp_kept].
  - right. pose proof (max_radius_nonneg cfg i c Hs) as Hm.
    repeat split; [exact Hlt | lra | apply clamp_fired; lra].
Qed.

Lemma clamp_contained (cfg : Config) (i : nat) (c p : Vec3) (status : string) :
  positive_slopes cfg -> clamp cfg i c = Ok (p, status) ->
  radius p <= max_radius cfg i p /\ vx p = vx c.
Proof.
  intros Hs Hc.
  destruct (clamp_cases cfg i c Hs) as [[Hle E]|(Hlt & _ & E)];
    rewrite E in Hc; injection Hc as <- _.
  - now split.
  - split; [|reflexivity].
    rewrite max_radius_scale_yz, radius_clamped by assumption. lra.
Qed.

(** The clamp never touches the x component. *)
Lemma clamp_x (cfg : Config) (i : nat) (c p : Vec3) (status : string) :
  clamp cfg i c = Ok (p, status) -> vx p = vx c.
Proof.
  unfold clamp.
  destruct (Rgt_dec _ _); [|now intros [= <- _]].
  destruct (checked_div _ _); simpl; [now intros [= <- _] | discriminate].
Qed.

(** C7, as stated, fails on float64 values: under the default slopes the
    clamp of the candidate (1, 0, 11) gives z = 0.4000000000000001, whose
    radius still exceeds [max_radius = 0.4] by one unit in the last place;
    the clamp of that position fires again and gives z = 0.4, another
    position. *)
Lemma clamp_f64_fires_again :
  let c := {| fx := 1; fy := 0; fz := 11 |} in
  let once := {| fx := 1; fy := 0; fz := 0x1.999999999999bp-2 |} in
  let twice := {| fx := 1; fy := 0; fz := 0x1.999999999999ap-2 |} in
  default_slope_f64 = 0x1.999999999999ap-2%float
  /\ clamp_f64 default_slope_f64 c = (once, "(Clamped)"%string)
  /\ clamp_f64 default_slope_f64 once = (twice, "(Clamped)"%string)
  /\ fst (clamp_f64 default_slope_f64 (fst (clamp_f64 default_slope_f64 c)))
     <> fst (clamp_f64 default_slope_f64 c).
Proof.
  intros c once twice.
  assert (H1 : clamp_f64 default_slope_f64 c = (once, "(Clamped)"%string))
    by (vm_compute; reflexivity).
  assert (H2 : clamp_f64 default_slope_f64 once = (twice, "(Clamped)"%string))
    by (vm_compute; reflexivity).
  split; [vm_compute; reflexivity|].
  split; [exact H1|]. split; [exact H2|].
  rewrite H1. cbn [fst]. rewrite H2. cbn [fst].
  intro H.
  apply (f_equal (fun v => (fz v <? 0x1.999999999999bp-2)%float)) in H.
  vm_compute in H. discriminate H.
Qed.

(** C7, amended. A candidate whose radius is within the cone is left as it
    is, and in exact real arithmetic (the slopes being positive) the clamp
    is idempotent: clamping the clamped position again changes nothing. *)
Theorem clamp_idempotent (cfg : Config) (i : nat) (c : Vec3) :
  (radius c <= max_radius cfg i c -> clamp cfg i c = Ok (c, ""%string))
  /\ (positive_slopes cfg ->
      exists p status,
        clamp cfg i c = Ok (p, status)
        /\ ('(q, _) <- clamp cfg i c ;; clamp cfg i q) = Ok (p, ""%string)).
Proof.
  split; [apply clamp_kept|].
  intro Hs.
  destruct (clamp_cases cfg i c Hs) as [[Hle E]|(Hlt & _ & E)].
  - exists c, ""%string. rewrite E. simpl. now split.
  - eexists _, _. rewrite E. simpl. split; [reflexivity|].
    apply clamp_kept.
    rewrite max_radius_scale_yz, radius_clamped by assumption. lra.
Qed.

Lemma clamp_idempotent_witness :
  let inside := {| vx := 8; vy := 0; vz := 2 |} in
  let outside := {| vx := 1; vy := 3; vz := 4 |} in
  (radius inside <= max_radius default_config 0 inside
   /\ clamp default_config 0 inside = Ok (inside, ""%string))
  /\ (positive_slopes default_config
      /\ max_radius default_config 0 outside < radius outside
      /\ exists p,
           clamp default_config 0 outside = Ok (p, "(Clamped)"%string)
           /\ ('(q, _) <- clamp default_config 0 outside ;;
               clamp default_config 0 q) = Ok (p, ""%string)).
Proof.
  intros inside outside. split.
  - assert (Hr : radius inside <= max_radius default_config 0 inside).
    { unfold radius, max_radius, _calculate_cone_slope, inside; simpl.
      replace (0² + 2²) with (2²) by (unfold Rsqr; ring).
      rewrite sqrt_Rsqr by lra. rewrite Rabs_pos_eq by lra. lra. }
    split; [exact Hr|].
    exact (proj1 (clamp_idempotent default_config 0 inside) Hr).
  - assert (Hr : radius outside = 5).
    { unfold radius, outside; simpl.
      replace (3² + 4²) with (5²) by (unfold Rsqr; ring).
      apply sqrt_Rsqr. lra. }
    assert (Hlt : max_radius default_config 0 outside < radius outside).
    { rewrite Hr. unfold max_radius, _calculate_cone_slope, outside; simpl.
      rewrite Rabs_pos_eq by lra. lra. }
    split; [exact default_slopes_positive|]. split; [exact Hlt|].
    destruct (proj2 (clamp_idempotent default_config 0 outside)
                default_slopes_positive) as (p & status & Hc & Htwice).
    exists p. split; [|exact Htwice].
    rewrite clamp_fired in Hc by (rewrite ?Hr; lra).
    injection Hc as <- <-. apply clamp_fired; rewrite ?Hr; lra.
Defined.

(** C10, as stated, fails on the axis: for a candidate with [x = 0] and a
    positive radius (here the candidate of the first fold of the input
    [[0, 1, 0, 0]]) the branch fires and the factor [max_radius / radius] is
    zero, not positive. *)
Lemma clamp_factor_zero_on_axis :
  let c := {| vx := 0; vy := 1; vz := 0 |} in
  positive_slopes default_config
  /\ candidate default_config 0 {| vx := 0; vy := 1; vz := 0 |} 0 = c
  /\ max_radius default_config 0 c < radius c
  /\ clamp default_config 0 c = Ok (scale_yz c 0, "(Clamped)"%string)
  /\ max_radius default_config 0 c / radius c = 0
  /\ ~ (0 < max_radius default_config 0 c / radius c).
Proof.
  intro c.
  assert (Hr : radius c = 1).
  { unfold radius, c; simpl.
    replace (1² + 0²) with 1 by (unfold Rsqr; ring). apply sqrt_1. }
  assert (Hm : max_radius default_config 0 c = 0).
  { unfold max_radius, c; simpl. rewrite Rabs_R0. ring. }
  assert (Hf : max_radius default_config 0 c / radius c = 0).
  { rewrite Hm, Hr. field. }
  split; [exact default_slopes_positive|].
  split; [unfold candidate, vadd, c; simpl; f_equal; ring|].
  split; [rewrite Hm, Hr; lra|].
  split.
  - rewrite clamp_fired by (rewrite ?Hm, Hr; lra). now rewrite Hf.
  - split; [exact Hf | rewrite Hf; lra].
Qed.

(** C10, amended. When the branch fires (the slopes being positive), the y
    and z components are scaled by the one factor [max_radius / radius], x
    is kept, and the radius of the result is exactly [max_radius]; the
    factor is never negative, and it is positive exactly when [x <> 0]. *)
Theorem clamp_lands_on_cone (cfg : Config) (i : nat) (c : Vec3) :
  positive_slopes cfg ->
  max_radius cfg i c < radius c ->
  let scale := max_radius cfg i c / radius c in
  clamp cfg i c = Ok (scale_yz c scale, "(Clamped)"%string)
  /\ radius (scale_yz c scale) = max_radius cfg i c
  /\ max_radius cfg i c
     = Rabs (vx c) * _calculate_cone_slope cfg (Z.of_nat i)
  /\ 0 <= scale
  /\ (0 < scale <-> vx c <> 0).
Proof.
  intros Hs Hlt scale.
  pose proof (max_radius_nonneg cfg i c Hs) as Hm.
  assert (Hr : 0 < radius c) by lra.
  assert (Hi : 0 < / radius c) by now apply Rinv_0_lt_compat.
  split; [apply clamp_fired; lra|].
  split; [now apply radius_clamped|].
  split; [reflexivity|].
  split; [unfold scale, Rdiv; nra|].
  pose proof (cone_slope_pos cfg i Hs) as Hc.
  unfold scale, Rdiv, max_radius in *.
  split.
  - intros Hp Hx. rewrite Hx, Rabs_R0 in Hp. lra.
  - intro Hx. apply Rabs_pos_lt in Hx.
    apply Rmult_lt_0_compat; [now apply Rmult_lt_0_compat | exact Hi].
Qed.

Lemma clamp_lands_on_cone_witness :
  let c := {| vx := 1; vy := 3; vz := 4 |} in
  positive_slopes default_config
  /\ max_radius default_config 0 c < radius c
  /\ radius (scale_yz c (max_radius default_config 0 c / radius c))
     = max_radius default_config 0 c.
Proof.
  intro c.
  assert (Hr : radius c = 5).
  { unfold radius, c; simpl.
    replace (3² + 4²) with (5²) by (unfold Rsqr; ring).
    apply sqrt_Rsqr. lra. }
  assert (Hlt : max_radius default_config 0 c < radius c).
  { rewrite Hr. unfold max_radius, _calculate_cone_slope, c; simpl.
    rewrite Rabs_pos_eq by lra. lra. }
  split; [exact default_slopes_positive|]. split; [exact Hlt|].
  exact (proj1 (proj2 (clamp_lands_on_cone default_config 0 c
                         default_slopes_positive Hlt))).
Defined.

(** ** The folding loop *)

Lemma candidate_x (cfg : Config) (i : nat) (p : Vec3) (m : R) :
  vx (candidate cfg i p m) = vx p.
Proof. unfold candidate, vadd; simpl. ring. Qed.

(** One turn of the loop, read off a successful run. *)
Lemma fold_dims_cons_inv (cfg : Config) (i : nat) (p : Vec3) (m : R)
  (rest : list R) (ts : list TraceStep) (vs : list VectorLine) :
  fold_dims cfg i p (m :: rest) = Ok (ts, vs) ->
  exists q status ts' vs',
    clamp cfg i (candidate cfg i p m) = Ok (q, status)
    /\ fold_dims cfg (S i) q rest = Ok (ts', vs')
    /\ ts = {| pos := q;
               step_label :=
                 ("D" ++ Py.str (4 + i) ++ " " ++ status)%string |} :: ts'
    /\ vs = {| v_start := p; v_end := q;
               v_name := ("D" ++ Py.str (4 + i) ++ " Vector")%string |}
            :: vs'.
Proof.
  simpl.
  destruct (clamp cfg i (candidate cfg i p m)) as [[q status]|e] eqn:Ec;
    [simpl|discriminate].
  destruct (fold_dims cfg (S i) q rest) as [[ts' vs']|e] eqn:Ef;
    [simpl|discriminate].
  intros [= <- <-]. exists q, status, ts', vs'. repeat split. exact Ef.
Qed.

Lemma fold_dims_total (cfg : Config) (extra_dims : list R) :
  positive_slopes cfg ->
  forall (i : nat) (p : Vec3),
  exists ts vs, fold_dims cfg i p extra_dims = Ok (ts, vs).
Proof.
  intro Hs.
  induction extra_dims as [|m rest IH]; intros i p; simpl.
  - now exists [], [].
  - destruct (clamp_cases cfg i (candidate cfg i p m) Hs)
      as [[_ E]|(_ & _ & E)]; rewrite E; simpl;
      match goal with
      | |- context [fold_dims cfg (S i) ?q rest] =>
          destruct (IH (S i) q) as (ts & vs & ->)
      end; simpl; eauto.
Qed.

Lemma fold_dims_length (cfg : Config) (extra_dims : list R) :
  forall (i : nat) (p : Vec3) ts vs,
  fold_dims cfg i p extra_dims = Ok (ts, vs) ->
  length ts = length extra_dims /\ length vs = length extra_dims.
Proof.
  induction extra_dims as [|m rest IH]; intros i p ts vs H.
  - injection H as <- <-. now split.
  - apply fold_dims_cons_inv in H as (q & status & ts' & vs' & _ & H & -> & ->).
    apply IH in H as [Ht Hv]. simpl. now rewrite Ht, Hv.
Qed.

Lemma fold_dims_x (cfg : Config) (extra_dims : list R) :
  forall (i : nat) (p : Vec3) ts vs,
  fold_dims cfg i p extra_dims = Ok (ts, vs) ->
  Forall (fun s => vx (pos s) = vx p) ts.
Proof.
  induction extra_dims as [|m rest IH]; intros i p ts vs H.
  - injection H as <- <-. constructor.
  - apply fold_dims_cons_inv in H as (q & status & ts' & vs' & Hc & H & -> & ->).
    apply clamp_x in Hc. rewrite candidate_x in Hc.
    constructor; [exact Hc|].
    apply IH in H. rewrite Hc in H. exact H.
Qed.

Lemma fold_dims_contained (cfg : Config) (extra_dims : list R) :
  positive_slopes cfg ->
  forall (i : nat) (p : Vec3) ts vs,
  fold_dims cfg i p extra_dims = Ok (ts, vs) ->
  forall (k : nat) (s : TraceStep),
    nth_error ts k = Some s ->
    radius (pos s) <= max_radius cfg (i + k) (pos s).
Proof.
  intro Hs.
  induction extra_dims as [|m rest IH]; intros i p ts vs H k s Hk.
  - injection H as <- <-. now destruct k.
  - apply fold_dims_cons_inv in H as (q & status & ts' & vs' & Hc & H & -> & ->).
    destruct k as [|k]; simpl in Hk.
    + injection Hk as <-. simpl. rewrite Nat.add_0_r.
      now apply (clamp_contained cfg i (candidate cfg i p m) q status).
    + replace (i + S k)%nat with (S i + k)%nat by lia.
      now apply (IH (S i) q ts' vs').
Qed.

(** Consecutive vector lines join consecutive trace positions. *)
Lemma fold_dims_vectors (cfg : Config) (extra_dims : list R) :
  forall (i : nat) (p : Vec3) ts vs,
  fold_dims cfg i p extra_dims = Ok (ts, vs) ->
  map v_end vs = map pos ts
  /\ map v_start vs = removelast (p :: map pos ts).
Proof.
  induction extra_dims as [|m rest IH]; intros i p ts vs H.
  - injection H as <- <-. now split.
  - apply fold_dims_cons_inv in H as (q & status & ts' & vs' & _ & H & -> & ->).
    apply IH in H as [He Hst]. split; simpl; [now rewrite He|].
    simpl in Hst. now rewrite Hst.
Qed.

(** The script's first input, [[8, 0, 0, 2, 20]]: the fold of the fourth
    coordinate goes straight up by 2 and stays within its cone. *)
Example first_fold_of_valid_point :
  fold_dims demo_config 0 {| vx := 8; vy := 0; vz := 0 |} [2]
  = Ok ([ {| pos := {| vx := 8; vy := 0; vz := 2 |};
             step_label := "D4 " |} ],
        [ {| v_start := {| vx := 8; vy := 0; vz := 0 |};
             v_end := {| vx := 8; vy := 0; vz := 2 |};
             v_name := "D4 Vector" |} ]).
Proof.
  assert (Hc : candidate demo_config 0 {| vx := 8; vy := 0; vz := 0 |} 2
               = {| vx := 8; vy := 0; vz := 2 |}).
  { unfold candidate, vadd, Py.deg2rad; simpl.
    replace ((90 + 45 * 0) * (PI / 180)) with (PI / 2) by field.
    rewrite cos_PI2, sin_PI2. f_equal; ring. }
  cbn [fold_dims]. rewrite Hc.
  rewrite clamp_kept; [reflexivity|].
  unfold radius, max_radius, _calculate_cone_slope; simpl.
  replace (0² + 2²) with (2²) by (unfold Rsqr; ring).
  rewrite sqrt_Rsqr by lra. rewrite Rabs_pos_eq by lra. lra.
Qed.

(** The fold of its fifth coordinate, 20 at 135 degrees, leaves the cone of
    slope 0.55 and is clamped. *)
Example second_fold_of_valid_point_clamped :
  let c := candidate demo_config 1 {| vx := 8; vy := 0; vz := 2 |} 20 in
  clamp demo_config 1 c
  = Ok (scale_yz c (max_radius demo_config 1 c / radius c),
        "(Clamped)"%string).
Proof.
  intro c.
  assert (Hz : 12 <= vz c).
  { unfold c, candidate, vadd, Py.deg2rad; simpl.
    replace ((90 + 45 * 1) * (PI / 180)) with (3 * (PI / 4)) by field.
    rewrite sin_3PI4.
    assert (H2 : 0 < sqrt 2) by (apply sqrt_lt_R0; lra).
    assert (Hle : sqrt 2 <= 2).
    { rewrite <- (sqrt_Rsqr 2) at 2 by lra.
      apply sqrt_le_1_alt. unfold Rsqr. lra. }
    assert (Hh : / 2 <= / sqrt 2) by (apply Rinv_le_contravar; lra).
    unfold Rdiv. lra. }
  assert (Hr : vz c <= radius c).
  { unfold radius. rewrite <- (sqrt_Rsqr (vz c)) at 1 by lra.
    apply sqrt_le_1_alt. pose proof (Rle_0_sqr (vy c)). lra. }
  assert (Hm : max_radius demo_config 1 c = 44 / 10).
  { unfold max_radius, _calculate_cone_slope, c, candidate, vadd; simpl.
    replace (8 + 0) with 8 by ring. rewrite Rabs_pos_eq by lra. lra. }
  apply clamp_fired; rewrite ?Hm; lra.
Qed.

(** ** [add_point] *)

Lemma max_by_test (m n : nat) :
  (if (m <? n)%nat then n else m) = Nat.max m n.
Proof. destruct (Nat.ltb_spec m n); lia. Qed.

Lemma build_point_folds (cfg : Config) (coords : list R) (label : string)
  (point : PointData) :
  build_point cfg coords label = Ok point ->
  length (trace point) = (1 + length (skipn 3 coords))%nat
  /\ length (vectors point) = length (skipn 3 coords).
Proof.
  unfold build_point.
  destruct (fold_dims cfg 0 _ (skipn 3 coords)) as [[ts vs]|e] eqn:E;
    [simpl|discriminate].
  intros [= <-]. simpl.
  apply fold_dims_length in E as [-> ->]. now split.
Qed.

Lemma build_point_total (cfg : Config) (coords : list R) (label : string) :
  positive_slopes cfg -> exists point, build_point cfg coords label = Ok point.
Proof.
  intro Hs. unfold build_point.
  match goal with
  | |- context [fold_dims cfg 0 ?p ?l] =>
      destruct (fold_dims_total cfg l Hs 0%nat p) as (ts & vs & ->)
  end.
  simpl. eauto.
Qed.

(** [add_point] by cases on the check of line 35. *)
Lemma add_point_eq (cfg : Config) (self : HyperSpace) (coords : list R)
  (label : string) :
  add_point cfg self coords label
  = if accepted cfg coords
    then point <- build_point cfg (truncated cfg coords) label ;;
         Ok ({| points_data := points_data self ++ [point];
                max_dims_used :=
                  Nat.max (max_dims_used self)
                          (length (skipn 3 (truncated cfg coords))) |},
             notices cfg coords label)
    else Ok (self, notices cfg coords label).
Proof.
  unfold add_point, accepted, notices, accepted, truncated.
  destruct (Z.of_nat (length coords) >? limit_dims cfg)%Z;
    match goal with
    | |- context [(length ?l <? 3)%nat] => destruct (length l <? 3)%nat
    end; simpl; rewrite ?max_by_test, ?app_nil_r; reflexivity.
Qed.

Lemma add_point_rejected (cfg : Config) (self : HyperSpace) (coords : list R)
  (label : string) :
  (length (truncated cfg coords) < 3)%nat ->
  add_point cfg self coords label = Ok (self, notices cfg coords label).
Proof.
  intro Hl. rewrite add_point_eq. unfold accepted.
  apply Nat.ltb_lt in Hl. now rewrite Hl.
Qed.

Lemma add_point_accepted (cfg : Config) (self : HyperSpace) (coords : list R)
  (label : string) (point : PointData) :
  (3 <= length (truncated cfg coords))%nat ->
  build_point cfg (truncated cfg coords) label = Ok point ->
  add_point cfg self coords label
  = Ok (spec_add self point, notices cfg coords label).
Proof.
  intros Hl Hb. rewrite add_point_eq. unfold accepted.
  apply Nat.ltb_ge in Hl. rewrite Hl, Hb. simpl.
  apply build_point_folds in Hb as [Ht _].
  unfold spec_add. rewrite Ht. simpl. now rewrite Nat.sub_0_r.
Qed.

Lemma build_point_inv (cfg : Config) (coords : list R) (label : string)
  (point : PointData) :
  build_point cfg coords label = Ok point ->
  let base_pos :=
    {| vx := nth 0 coords 0; vy := nth 1 coords 0; vz := nth 2 coords 0 |} in
  exists ts vs,
    fold_dims cfg 0 base_pos (skipn 3 coords) = Ok (ts, vs)
    /\ point = {| label := label;
                  trace := {| pos := base_pos;
                              step_label := (label ++ " (3D)")%string |}
                           :: ts;
                  vectors := vs |}.
Proof.
  unfold build_point.
  destruct (fold_dims cfg 0 _ (skipn 3 coords)) as [[ts vs]|e] eqn:E;
    [simpl|discriminate].
  intros [= <-]. now exists ts, vs.
Qed.

(** With positive slopes every input that passes the check of line 35 is
    added. *)
Lemma add_point_total (cfg : Config) (self : HyperSpace) (coords : list R)
  (label : string) :
  positive_slopes cfg ->
  (3 <= length (truncated cfg coords))%nat ->
  exists point,
    build_point cfg (truncated cfg coords) label = Ok point
    /\ add_point cfg self coords label
       = Ok (spec_add self point, notices cfg coords label).
Proof.
  intros Hs Hl.
  destruct (build_point_total cfg (truncated cfg coords) label Hs)
    as [point Hb].
  exists point. split; [exact Hb | now apply add_point_accepted].
Qed.

Lemma add_point_inv (cfg : Config) (self self' : HyperSpace) (coords : list R)
  (label : string) (out : list notice) :
  add_point cfg self coords label = Ok (self', out) ->
  out = notices cfg coords label
  /\ ((accepted cfg coords = false /\ self' = self)
      \/ (accepted cfg coords = true
          /\ exists point,
               build_point cfg (truncated cfg coords) label = Ok point
               /\ self' = spec_add self point)).
Proof.
  destruct (accepted cfg coords) eqn:Ea.
  - destruct (build_point cfg (truncated cfg coords) label) as [point|e] eqn:Eb.
    + rewrite (add_point_accepted cfg self coords label point); [|
        unfold accepted in Ea; apply negb_true_iff, Nat.ltb_ge in Ea; exact Ea
        | exact Eb].
      intros [= <- <-]. split; [reflexivity|]. right. eauto.
    + rewrite add_point_eq, Ea, Eb. discriminate.
  - rewrite add_point_eq, Ea. intros [= <- <-]. split; [reflexivity|]. now left.
Qed.

Lemma build_point_label (cfg : Config) (coords : list R) (l : string)
  (point : PointData) :
  build_point cfg coords l = Ok point -> label point = l.
Proof. intro H. now apply build_point_inv in H as (ts & vs & _ & ->). Qed.

Lemma truncated_prefix (cfg : Config) (coords : list R) :
  exists k, truncated cfg coords = firstn k coords.
Proof.
  unfold truncated, Py.slice_to.
  destruct (Z.of_nat (length coords) >? limit_dims cfg)%Z.
  - destruct (limit_dims cfg <? 0)%Z; eauto.
  - exists (length coords). now rewrite firstn_all.
Qed.

Lemma truncated_first (cfg : Config) (coords : list R) :
  (1 <= length (truncated cfg coords))%nat ->
  nth 0 (truncated cfg coords) 0 = nth 0 coords 0.
Proof.
  destruct (truncated_prefix cfg coords) as [k ->].
  destruct k as [|k]; [simpl; lia|].
  now destruct coords.
Qed.

Lemma demo_slopes_positive : positive_slopes demo_config.
Proof. split; simpl; lra. Qed.

(** C1. For an accepted input (at least three coordinates after the
    truncation; positive slopes) the point is added, and every folded step
    of its trace, at index [i >= 1], lies within the cone of its dimension:
    [sqrt (y^2 + z^2) <= |x| * cone_slope (i - 1)], hence also up to any
    tolerance [eps >= 0], whatever the magnitudes. *)
Theorem folded_steps_in_cone (cfg : Config) (self : HyperSpace)
  (coords : list R) (label : string) :
  positive_slopes cfg ->
  (3 <= length (truncated cfg coords))%nat ->
  exists point,
    add_point cfg self coords label
    = Ok (spec_add self point, notices cfg coords label)
    /\ forall (i : nat) (s : TraceStep),
         (1 <= i)%nat -> nth_error (trace point) i = Some s ->
         forall eps : R, 0 <= eps ->
           sqrt ((vy (pos s))² + (vz (pos s))²)
           <= Rabs (vx (pos s)) * _calculate_cone_slope cfg (Z.of_nat i - 1)
              + eps.
Proof.
  intros Hs Hl.
  destruct (add_point_total cfg self coords label Hs Hl) as (point & Hb & Ha).
  exists point. split; [exact Ha|].
  apply build_point_inv in Hb as (ts & vs & Hf & ->).
  intros [|k] s Hi Hk eps He; [lia|]. simpl in Hk.
  pose proof (fold_dims_contained cfg _ Hs _ _ _ _ Hf k s Hk) as Hc.
  unfold max_radius, radius in Hc. simpl (0 + k)%nat in Hc.
  replace (Z.of_nat (S k) - 1)%Z with (Z.of_nat k) by lia.
  lra.
Qed.

Lemma folded_steps_in_cone_witness :
  positive_slopes demo_config
  /\ (3 <= length (truncated demo_config valid_point))%nat
  /\ exists point,
       add_point demo_config init_space valid_point "Valid Point"
       = Ok (spec_add init_space point,
             notices demo_config valid_point "Valid Point")
       /\ forall (i : nat) (s : TraceStep),
            (1 <= i)%nat -> nth_error (trace point) i = Some s ->
            forall eps : R, 0 <= eps ->
              sqrt ((vy (pos s))² + (vz (pos s))²)
              <= Rabs (vx (pos s))
                 * _calculate_cone_slope demo_config (Z.of_nat i - 1)
                 + eps.
Proof.
  assert (Hl : (3 <= length (truncated demo_config valid_point))%nat)
    by (unfold truncated; simpl; lia).
  split; [exact demo_slopes_positive|]. split; [exact Hl|].
  exact (folded_steps_in_cone demo_config init_space valid_point
           "Valid Point" demo_slopes_positive Hl).
Defined.

(** C8. Every position of the trace of an accepted point has the x
    coordinate of the input: the offset of a fold has a zero x component,
    and the clamp rescales y and z only.  (With positive slopes the point is
    indeed added.) *)
Theorem trace_keeps_x (cfg : Config) (self : HyperSpace) (coords : list R)
  (label : string) :
  (3 <= length (truncated cfg coords))%nat ->
  (positive_slopes cfg ->
   exists point,
     add_point cfg self coords label
     = Ok (spec_add self point, notices cfg coords label))
  /\ (forall (self' : HyperSpace) (out : list notice),
        add_point cfg self coords label = Ok (self', out) ->
        exists point,
          self' = spec_add self point
          /\ Forall (fun s => vx (pos s) = nth 0 coords 0) (trace point))
  /\ (forall (i : nat) (p : Vec3) (magnitude : R),
        vx (candidate cfg i p magnitude) = vx p + 0)
  /\ (forall (i : nat) (c q : Vec3) (status : string),
        clamp cfg i c = Ok (q, status) -> vx q = vx c).
Proof.
  intro Hl. split; [|split; [|split]].
  - intro Hs.
    destruct (add_point_total cfg self coords label Hs Hl) as (point & _ & Ha).
    now exists point.
  - intros self' out Ha.
    apply add_point_inv in Ha as [_ [[Hrej _]|(_ & point & Hb & ->)]].
    + unfold accepted in Hrej.
      apply negb_false_iff, Nat.ltb_lt in Hrej. lia.
    + exists point. split; [reflexivity|].
      apply build_point_inv in Hb as (ts & vs & Hf & ->). simpl.
      rewrite truncated_first by lia.
      constructor; [reflexivity|].
      apply fold_dims_x in Hf. simpl in Hf.
      now rewrite truncated_first in Hf by lia.
  - reflexivity.
  - apply clamp_x.
Qed.

Lemma trace_keeps_x_witness :
  (3 <= length (truncated demo_config valid_point))%nat
  /\ positive_slopes demo_config
  /\ exists point,
       add_point demo_config init_space valid_point "Valid Point"
       = Ok (spec_add init_space point,
             notices demo_config valid_point "Valid Point")
       /\ Forall (fun s => vx (pos s) = 8) (trace point).
Proof.
  assert (Hl : (3 <= length (truncated demo_config valid_point))%nat)
    by (unfold truncated; simpl; lia).
  split; [exact Hl|]. split; [exact demo_slopes_positive|].
  destruct (proj1 (trace_keeps_x demo_config init_space valid_point
                     "Valid Point" Hl) demo_slopes_positive) as [point Ha].
  destruct (proj1 (proj2 (trace_keeps_x demo_config init_space valid_point
                            "Valid Point" Hl)) _ _ Ha) as (point' & E & Hx).
  exists point'. split; [now rewrite <- E | exact Hx].
Defined.

(** ** Validation *)

Lemma truncated_oversize (cfg : Config) (coords : list R) :
  (0 <= limit_dims cfg)%Z ->
  (limit_dims cfg < Z.of_nat (length coords))%Z ->
  truncated cfg coords = firstn (Z.to_nat (limit_dims cfg)) coords
  /\ length (truncated cfg coords) = Z.to_nat (limit_dims cfg).
Proof.
  intros H0 Hlt. unfold truncated, Py.slice_to.
  replace (Z.of_nat (length coords) >? limit_dims cfg)%Z with true
    by (symmetry; rewrite Z.gtb_ltb; apply Z.ltb_lt; lia).
  replace (limit_dims cfg <? 0)%Z with false
    by (symmetry; apply Z.ltb_ge; lia).
  split; [reflexivity|].
  rewrite length_firstn. lia.
Qed.

Lemma truncated_within (cfg : Config) (coords : list R) :
  (Z.of_nat (length coords) <= limit_dims cfg)%Z ->
  truncated cfg coords = coords.
Proof.
  intro Hle. unfold truncated.
  now replace (Z.of_nat (length coords) >? limit_dims cfg)%Z with false
    by (symmetry; rewrite Z.gtb_ltb; apply Z.ltb_ge; lia).
Qed.

Lemma notices_accepted_oversize (cfg : Config) (coords : list R)
  (label : string) :
  (limit_dims cfg < Z.of_nat (length coords))%Z ->
  (3 <= length (truncated cfg coords))%nat ->
  notices cfg coords label
  = [TruncationWarning label (length coords) (limit_dims cfg)].
Proof.
  intros Hlt Hl. unfold notices, accepted.
  replace (Z.of_nat (length coords) >? limit_dims cfg)%Z with true
    by (symmetry; rewrite Z.gtb_ltb; apply Z.ltb_lt; lia).
  apply Nat.ltb_ge in Hl. now rewrite Hl.
Qed.

Lemma notices_accepted_within (cfg : Config) (coords : list R)
  (label : string) :
  (Z.of_nat (length coords) <= limit_dims cfg)%Z ->
  (3 <= length coords)%nat ->
  notices cfg coords label = [].
Proof.
  intros Hle Hl. unfold notices, accepted.
  rewrite (truncated_within cfg coords Hle).
  replace (Z.of_nat (length coords) >? limit_dims cfg)%Z with false
    by (symmetry; rewrite Z.gtb_ltb; apply Z.ltb_ge; lia).
  apply Nat.ltb_ge in Hl. now rewrite Hl.
Qed.

Lemma notices_rejected (cfg : Config) (coords : list R) (label : string) :
  (length (truncated cfg coords) < 3)%nat ->
  exists warning,
    notices cfg coords label = warning ++ [TooSmallError label].
Proof.
  intro Hl. unfold notices, accepted.
  apply Nat.ltb_lt in Hl. rewrite Hl. simpl. eauto.
Qed.

(** C3. A coordinate list longer than [limit_dims] (a limit of at least
    three, positive slopes) is added all the same, with the truncation
    warning as the only notice, and the point added is the one [add_point]
    adds for the first [limit_dims] coordinates alone. *)
Theorem oversize_is_truncated (cfg : Config) (self : HyperSpace)
  (coords : list R) (label : string) :
  positive_slopes cfg ->
  (3 <= limit_dims cfg)%Z ->
  (limit_dims cfg < Z.of_nat (length coords))%Z ->
  exists point,
    add_point cfg self coords label
    = Ok (spec_add self point,
          [TruncationWarning label (length coords) (limit_dims cfg)])
    /\ add_point cfg self (firstn (Z.to_nat (limit_dims cfg)) coords) label
       = Ok (spec_add self point, []).
Proof.
  intros Hs H3 Hlt.
  destruct (truncated_oversize cfg coords) as [Ht Hlen]; [lia|exact Hlt|].
  assert (Hl : (3 <= length (truncated cfg coords))%nat) by lia.
  destruct (add_point_total cfg self coords label Hs Hl) as (point & Hb & Ha).
  exists point. split.
  - now rewrite Ha, notices_accepted_oversize.
  - set (prefix := firstn (Z.to_nat (limit_dims cfg)) coords) in *.
    assert (Hp : length prefix = Z.to_nat (limit_dims cfg))
      by (now rewrite <- Ht).
    assert (Hw : (Z.of_nat (length prefix) <= limit_dims cfg)%Z) by lia.
    rewrite (add_point_accepted cfg self prefix label point).
    + rewrite notices_accepted_within; [reflexivity | exact Hw | lia].
    + rewrite truncated_within by exact Hw. lia.
    + rewrite truncated_within by exact Hw. now rewrite <- Ht.
Qed.

Lemma oversize_is_truncated_witness :
  positive_slopes demo_config
  /\ (3 <= limit_dims demo_config)%Z
  /\ (limit_dims demo_config < Z.of_nat (length overloaded_point))%Z
  /\ exists point,
       add_point demo_config init_space overloaded_point "Overloaded Point"
       = Ok (spec_add init_space point,
             [TruncationWarning "Overloaded Point" 7 5])
       /\ add_point demo_config init_space [8; 0; 0; 2; 2] "Overloaded Point"
          = Ok (spec_add init_space point, []).
Proof.
  assert (H3 : (3 <= limit_dims demo_config)%Z) by (simpl; lia).
  assert (Hlt : (limit_dims demo_config < Z.of_nat (length overloaded_point))%Z)
    by (simpl; lia).
  split; [exact demo_slopes_positive|]. split; [exact H3|]. split; [exact Hlt|].
  exact (oversize_is_truncated demo_config init_space overloaded_point
           "Overloaded Point" demo_slopes_positive H3 Hlt).
Defined.

(** C4. An input with fewer than three coordinates after the truncation adds
    no point: the collection is returned as it was, and the too-small error
    is printed.  An input with exactly three coordinates (after the
    truncation; or before it, the limit being at least three) adds a point
    whose trace is the base position alone and whose vectors are empty. *)
Theorem rejection_boundary (cfg : Config) (self : HyperSpace)
  (coords : list R) (label : string) :
  let base_point :=
    {| label := label;
       trace := [ {| pos := {| vx := nth 0 coords 0; vy := nth 1 coords 0;
                               vz := nth 2 coords 0 |};
                     step_label := (label ++ " (3D)")%string |} ];
       vectors := [] |} in
  ((length (truncated cfg coords) < 3)%nat ->
     add_point cfg self coords label = Ok (self, notices cfg coords label)
     /\ exists warning,
          notices cfg coords label = warning ++ [TooSmallError label])
  /\ (length (truncated cfg coords) = 3%nat ->
      add_point cfg self coords label
      = Ok (spec_add self base_point, notices cfg coords label)
      /\ length (trace base_point) = 1%nat /\ vectors base_point = [])
  /\ ((3 <= limit_dims cfg)%Z -> length coords = 3%nat ->
      add_point cfg self coords label = Ok (spec_add self base_point, [])).
Proof.
  intro base_point.
  assert (Hthree : length (truncated cfg coords) = 3%nat ->
                   add_point cfg self coords label
                   = Ok (spec_add self base_point, notices cfg coords label)).
  { intro Hl. apply add_point_accepted; [lia|].
    destruct (truncated_prefix cfg coords) as [k Hk].
    rewrite Hk in Hl |- *. unfold build_point.
    rewrite skipn_all2 by lia. simpl.
    destruct coords as [|a [|b [|c rest]]];
      try (rewrite length_firstn in Hl; simpl in Hl; lia).
    destruct k as [|[|[|k]]]; try (simpl in Hl; lia).
    reflexivity. }
  split; [|split].
  - intro Hl. split; [now apply add_point_rejected | now apply notices_rejected].
  - intro Hl. now split; [apply Hthree|].
  - intros H3 Hl.
    assert (Hw : (Z.of_nat (length coords) <= limit_dims cfg)%Z) by lia.
    rewrite <- (notices_accepted_within cfg coords label Hw) by lia.
    apply Hthree. now rewrite truncated_within.
Qed.

Lemma rejection_boundary_witness :
  ((length (truncated demo_config small_point) < 3)%nat
   /\ add_point demo_config init_space small_point "C"
      = Ok (init_space, [TooSmallError "C"]))
  /\ ((3 <= limit_dims demo_config)%Z /\ length bare_point = 3%nat
      /\ exists point,
           add_point demo_config init_space bare_point "P"
           = Ok (spec_add init_space point, [])
           /\ length (trace point) = 1%nat /\ vectors point = []).
Proof.
  assert (Hl : (length (truncated demo_config small_point) < 3)%nat)
    by (unfold truncated; simpl; lia).
  assert (H3 : (3 <= limit_dims demo_config)%Z) by (simpl; lia).
  split.
  - split; [exact Hl|].
    exact (proj1 (proj1 (rejection_boundary demo_config init_space small_point "C")
                    Hl)).
  - split; [exact H3|]. split; [reflexivity|].
    eexists. split.
    + exact (proj2 (proj2 (rejection_boundary demo_config init_space bare_point
                             "P")) H3 eq_refl).
    + split; reflexivity.
Defined.

(** ** The collection *)

Lemma enumerate_from_cons {A : Type} (i : nat) (a : A) (l : list A) :
  enumerate_from i (a :: l) = (i, a) :: enumerate_from (S i) l.
Proof. reflexivity. Qed.

Lemma spec_add_all_points (points : list PointData) :
  forall self : HyperSpace,
  points_data (fold_left spec_add points self) = points_data self ++ points.
Proof.
  induction points as [|p points IH]; intro self; simpl.
  - now rewrite app_nil_r.
  - rewrite IH. simpl. now rewrite <- app_assoc.
Qed.

Lemma spec_add_all_max (points : list PointData) :
  forall self : HyperSpace,
  max_dims_used (fold_left spec_add points self)
  = Nat.max (max_dims_used self) (max_folds points).
Proof.
  induction points as [|p points IH]; intro self; simpl.
  - now rewrite Nat.max_0_r.
  - rewrite IH. simpl. now rewrite Nat.max_assoc.
Qed.

Lemma max_folds_app (l1 l2 : list PointData) :
  max_folds (l1 ++ l2) = Nat.max (max_folds l1) (max_folds l2).
Proof.
  induction l1 as [|p l1 IH]; simpl; [reflexivity|].
  now rewrite IH, Nat.max_assoc.
Qed.

(** What a batch does, read off a successful run: the points of the accepted
    entries are added in order, each built under the label of its entry, and
    each entry prints its notices once. *)
Lemma add_points_from_inv (cfg : Config) (list_of_points : list (list R)) :
  forall (self self' : HyperSpace) (i : nat) (out : list notice),
  add_points_from cfg self i list_of_points = Ok (self', out) ->
  exists points,
    self' = fold_left spec_add points self
    /\ out = flat_map (fun ic => notices cfg (snd ic) (batch_label (fst ic)))
                      (enumerate_from i list_of_points)
    /\ Forall2
         (fun point ic =>
            build_point cfg (truncated cfg (snd ic)) (batch_label (fst ic))
            = Ok point)
         points
         (filter (fun ic => accepted cfg (snd ic))
                 (enumerate_from i list_of_points)).
Proof.
  induction list_of_points as [|c rest IH]; intros self self' i out H.
  - injection H as <- <-. exists []. repeat split. constructor.
  - rewrite enumerate_from_cons. simpl in H |- *.
    destruct (add_point cfg self c (batch_label i)) as [[s1 o1]|e] eqn:Ea;
      [simpl in H|discriminate].
    destruct (add_points_from cfg s1 (S i) rest) as [[s2 o2]|e] eqn:Er;
      [simpl in H|discriminate].
    injection H as <- <-.
    apply IH in Er as (points & -> & -> & HF).
    apply add_point_inv in Ea as [-> [[Hrej ->]|(Hacc & point & Hb & ->)]].
    + exists points. rewrite Hrej. now repeat split.
    + exists (point :: points). rewrite Hacc.
      repeat split. now constructor.
Qed.

(** With positive slopes every call of [add_point] returns. *)
Lemma add_point_returns (cfg : Config) (self : HyperSpace) (coords : list R)
  (label : string) :
  positive_slopes cfg ->
  exists self' out, add_point cfg self coords label = Ok (self', out).
Proof.
  intro Hs. destruct (accepted cfg coords) eqn:Ea; unfold accepted in Ea.
  - apply negb_true_iff, Nat.ltb_ge in Ea.
    destruct (add_point_total cfg self coords label Hs Ea) as (p & _ & ->).
    eauto.
  - apply negb_false_iff, Nat.ltb_lt in Ea.
    rewrite add_point_rejected by exact Ea. eauto.
Qed.

Lemma add_points_from_total (cfg : Config) (list_of_points : list (list R)) :
  positive_slopes cfg ->
  forall (self : HyperSpace) (i : nat),
  exists self' out, add_points_from cfg self i list_of_points = Ok (self', out).
Proof.
  intro Hs.
  induction list_of_points as [|c rest IH]; intros self i; simpl.
  - eauto.
  - destruct (add_point_returns cfg self c (batch_label i) Hs)
      as (s1 & o1 & ->). simpl.
    destruct (IH s1 (S i)) as (s2 & o2 & ->). simpl. eauto.
Qed.

(** A step adds points, in the collection's sense of adding. *)
Lemma step_adds (cfg : Config) (self self' : HyperSpace) (o : op) :
  step cfg self o = Ok self' ->
  exists points, self' = fold_left spec_add points self.
Proof.
  destruct o as [coords l|lst]; simpl.
  - destruct (add_point cfg self coords l) as [[s1 o1]|e] eqn:Ea;
      [simpl|discriminate].
    intros [= <-].
    apply add_point_inv in Ea as [_ [[_ ->]|(_ & point & _ & ->)]].
    + now exists [].
    + now exists [point].
  - unfold add_points_from_list.
    destruct (add_points_from cfg self 0 lst) as [[s1 o1]|e] eqn:Ea;
      [simpl|discriminate].
    intros [= <-].
    apply add_points_from_inv in Ea as (points & -> & _). now exists points.
Qed.

Lemma step_total (cfg : Config) (self : HyperSpace) (o : op) :
  positive_slopes cfg -> exists self', step cfg self o = Ok self'.
Proof.
  intro Hs. destruct o as [coords l|lst].
  - destruct (add_point_returns cfg self coords l Hs) as (s1 & o1 & H).
    simpl. rewrite H. simpl. eauto.
  - destruct (add_points_from_total cfg lst Hs self 0) as (s & out & H).
    simpl. unfold add_points_from_list. rewrite H. simpl. eauto.
Qed.

Lemma run_total (cfg : Config) (ops : list op) :
  positive_slopes cfg ->
  forall self : HyperSpace, exists self', run cfg self ops = Ok self'.
Proof.
  intro Hs. induction ops as [|o ops IH]; intro self; simpl.
  - eauto.
  - destruct (step_total cfg self o Hs) as [s1 ->]. simpl. apply IH.
Qed.

Lemma spec_add_all_invariant (points : list PointData) (self : HyperSpace) :
  max_is_max_folds self -> max_is_max_folds (fold_left spec_add points self).
Proof.
  unfold max_is_max_folds. intro H.
  now rewrite spec_add_all_max, spec_add_all_points, max_folds_app, H.
Qed.

Lemma run_invariant (cfg : Config) (ops : list op) :
  forall self self' : HyperSpace,
  max_is_max_folds self -> run cfg self ops = Ok self' ->
  max_is_max_folds self'.
Proof.
  induction ops as [|o ops IH]; intros self self' Hinv H; simpl in H.
  - now injection H as <-.
  - destruct (step cfg self o) as [s1|e] eqn:Es; [simpl in H|discriminate].
    apply step_adds in Es as [points ->].
    apply (IH _ _ (spec_add_all_invariant points self Hinv) H).
Qed.

Lemma step_add_point_max (cfg : Config) (self self' : HyperSpace)
  (coords : list R) (label : string) :
  step cfg self (OpAddPoint coords label) = Ok self' ->
  (Z.of_nat (length coords) <= limit_dims cfg)%Z ->
  (3 <= length coords)%nat ->
  max_dims_used self'
  = Nat.max (max_dims_used self) (length coords - 3).
Proof.
  simpl. intros H Hw Hl.
  destruct (add_point cfg self coords label) as [[s1 o1]|e] eqn:Ea;
    [simpl in H|discriminate].
  injection H as <-.
  apply add_point_inv in Ea as [_ [[Hrej _]|(_ & point & Hb & ->)]].
  - unfold accepted in Hrej. rewrite truncated_within in Hrej by exact Hw.
    apply negb_false_iff, Nat.ltb_lt in Hrej. lia.
  - apply build_point_folds in Hb as [Ht _].
    rewrite truncated_within in Ht by exact Hw.
    simpl. rewrite Ht, length_skipn. f_equal. lia.
Qed.

(** The specification's aggregation scenario: points with 2, 0, 4 and 1
    extra dimensions leave [max_dims_used] at 4. *)
Example max_dims_used_aggregation :
  exists self : HyperSpace,
    run wide_config init_space aggregation_run = Ok self
    /\ max_dims_used self = 4%nat.
Proof.
  assert (Hs : positive_slopes wide_config) by (split; simpl; lra).
  destruct (run_total wide_config aggregation_run Hs init_space) as [self H].
  exists self. split; [exact H|].
  unfold aggregation_run in H. cbn [run] in H.
  destruct (step wide_config init_space _) as [s1|] eqn:E1;
    [cbn [bind] in H|discriminate].
  destruct (step wide_config s1 _) as [s2|] eqn:E2;
    [cbn [bind] in H|discriminate].
  destruct (step wide_config s2 _) as [s3|] eqn:E3;
    [cbn [bind] in H|discriminate].
  destruct (step wide_config s3 _) as [s4|] eqn:E4;
    [cbn [bind] in H|discriminate].
  injection H as <-.
  apply step_add_point_max in E1; [|simpl; lia..].
  apply step_add_point_max in E2; [|simpl; lia..].
  apply step_add_point_max in E3; [|simpl; lia..].
  apply step_add_point_max in E4; [|simpl; lia..].
  simpl in *. lia.
Qed.



(** ** Batches *)

Example batch_label_first : batch_label 0 = "BatchPoint_1"%string.
Proof. reflexivity. Qed.

Example batch_label_tenth : batch_label 9 = "BatchPoint_10"%string.
Proof. reflexivity. Qed.

Lemma spec_batch_step_err (cfg : Config) (entries : list (nat * list R))
  (e : error) :
  fold_left
    (fun acc ic =>
       '(s, out) <- acc ;;
       '(s', out') <- add_point cfg s (snd ic) (batch_label (fst ic)) ;;
       Ok (s', out ++ out'))
    entries (Err e)
  = Err e.
Proof. induction entries as [|ic entries IH]; simpl; [reflexivity|exact IH]. Qed.

Lemma spec_batch_from (cfg : Config) (list_of_points : list (list R)) :
  forall (i : nat) (self : HyperSpace) (out : list notice),
  fold_left
    (fun acc ic =>
       '(s, out) <- acc ;;
       '(s', out') <- add_point cfg s (snd ic) (batch_label (fst ic)) ;;
       Ok (s', out ++ out'))
    (enumerate_from i list_of_points) (Ok (self, out))
  = ('(s', out') <- add_points_from cfg self i list_of_points ;;
     Ok (s', out ++ out')).
Proof.
  induction list_of_points as [|c rest IH]; intros i self out.
  - simpl. now rewrite app_nil_r.
  - rewrite enumerate_from_cons. simpl.
    destruct (add_point cfg self c (batch_label i)) as [[s1 o1]|e]; simpl.
    + rewrite IH.
      destruct (add_points_from cfg s1 (S i) rest) as [[s2 o2]|e]; simpl;
        [now rewrite app_assoc | reflexivity].
    + apply spec_batch_step_err.
Qed.

(** C9. A batch calls [add_point] once per entry, in order, under the label
    ["BatchPoint_"] followed by the entry's ordinal (from 1); the points of
    the accepted entries are added in input order, and a rejected entry
    changes nothing in the collection.  (With positive slopes the batch
    returns.) *)
Theorem batch_adds_accepted_in_order (cfg : Config) (self : HyperSpace)
  (list_of_points : list (list R)) :
  let entries := enumerate_from 0 list_of_points in
  (positive_slopes cfg ->
   exists self' out,
     add_points_from_list cfg self list_of_points = Ok (self', out))
  /\ (forall (self' : HyperSpace) (out : list notice),
        add_points_from_list cfg self list_of_points = Ok (self', out) ->
        exists points,
          self' = fold_left spec_add points self
          /\ points_data self' = points_data self ++ points
          /\ Forall2
               (fun point ic =>
                  build_point cfg (truncated cfg (snd ic))
                              (batch_label (fst ic))
                  = Ok point
                  /\ label point
                     = ("BatchPoint_" ++ Py.str (fst ic + 1))%string)
               points
               (filter (fun ic => accepted cfg (snd ic)) entries)
          /\ out = flat_map
                     (fun ic => notices cfg (snd ic) (batch_label (fst ic)))
                     entries)
  /\ add_points_from_list cfg self list_of_points
     = spec_add_batch cfg self list_of_points.
Proof.
  intro entries. unfold add_points_from_list. split; [|split].
  - intro Hs. apply add_points_from_total, Hs.
  - intros self' out Hb.
    apply add_points_from_inv in Hb as (points & -> & -> & HF).
    exists points. split; [reflexivity|].
    split; [apply spec_add_all_points|]. split; [|reflexivity].
    eapply Forall2_impl; [|exact HF].
    intros point ic H. split; [exact H|].
    now apply build_point_label in H.
  - unfold spec_add_batch. rewrite spec_batch_from.
    destruct (add_points_from cfg self 0 list_of_points) as [[s o]|e];
      reflexivity.
Qed.

Lemma batch_adds_accepted_in_order_witness :
  let batch := [valid_point; small_point; overloaded_point] in
  positive_slopes demo_config
  /\ exists p1 p3,
       add_points_from_list demo_config init_space batch
       = Ok (spec_add (spec_add init_space p1) p3,
             [TooSmallError "BatchPoint_2";
              TruncationWarning "BatchPoint_3" 7 5])
       /\ label p1 = "BatchPoint_1"%string
       /\ label p3 = "BatchPoint_3"%string.
Proof.
  intro batch. split; [exact demo_slopes_positive|].
  destruct (proj1 (batch_adds_accepted_in_order demo_config init_space batch)
              demo_slopes_positive) as (self' & out & Hb).
  destruct (proj1 (proj2 (batch_adds_accepted_in_order demo_config init_space
                            batch)) self' out Hb)
    as (points & Es & _ & HF & Eo).
  unfold batch, enumerate_from, accepted, truncated in HF. simpl in HF.
  inversion HF as [|p1 ic1 ps1 l1 [_ H1] HF1]; subst.
  inversion HF1 as [|p3 ic3 ps3 l3 [_ H3] HF3]; subst.
  inversion HF3; subst.
  exists p1, p3. split; [exact Hb|split; [exact H1|exact H3]].
Defined.

(** ** The trace, step by step *)

(** Turn [k] of the loop: it starts from position [k] of the trace so far,
    appends step [k] and vector [k]. *)
Lemma fold_dims_nth (cfg : Config) (extra_dims : list R) :
  forall (i : nat) (p : Vec3) ts vs,
  fold_dims cfg i p extra_dims = Ok (ts, vs) ->
  forall (k : nat) (m : R),
    nth_error extra_dims k = Some m ->
    exists prev s,
      nth_error (p :: map pos ts) k = Some prev
      /\ nth_error ts k = Some s
      /\ folds_to cfg (i + k) prev m s
      /\ nth_error vs k
         = Some {| v_start := prev; v_end := pos s;
                   v_name := ("D" ++ Py.str (4 + (i + k)) ++ " Vector")%string |}.
Proof.
  induction extra_dims as [|m0 rest IH]; intros i p ts vs H k m Hk.
  - now destruct k.
  - apply fold_dims_cons_inv in H
      as (q & status & ts' & vs' & Hc & H & -> & ->).
    destruct k as [|k]; simpl in Hk.
    + injection Hk as <-. rewrite Nat.add_0_r.
      eexists p, _. repeat split; [exists status; now split].
    + destruct (IH _ _ _ _ H k m Hk) as (prev & s & Hp & Hs & Hf & Hv).
      replace (i + S k)%nat with (S i + k)%nat by lia.
      exists prev, s. now repeat split.
Qed.

Lemma truncated_length_le (cfg : Config) (coords : list R) :
  (0 <= limit_dims cfg)%Z ->
  (Z.of_nat (length (truncated cfg coords)) <= limit_dims cfg)%Z.
Proof.
  intro H0.
  destruct (Z_lt_le_dec (limit_dims cfg) (Z.of_nat (length coords)))
    as [Hlt|Hle].
  - destruct (truncated_oversize cfg coords H0 Hlt) as [_ ->]. lia.
  - now rewrite truncated_within.
Qed.

Lemma accepted_true (cfg : Config) (coords : list R) :
  accepted cfg coords = true <-> (3 <= length (truncated cfg coords))%nat.
Proof.
  unfold accepted. rewrite negb_true_iff. apply Nat.ltb_ge.
Qed.

(** The points an operation adds were built by [add_point] from accepted
    inputs. *)
Lemma step_adds_built (cfg : Config) (self self' : HyperSpace) (o : op) :
  step cfg self o = Ok self' ->
  exists points,
    self' = fold_left spec_add points self /\ Forall (built cfg) points.
Proof.
  destruct o as [coords l|lst]; simpl.
  - destruct (add_point cfg self coords l) as [[s1 o1]|e] eqn:Ea;
      [simpl|discriminate].
    intros [= <-].
    apply add_point_inv in Ea as [_ [[_ ->]|(Hacc & point & Hb & ->)]].
    + now exists [].
    + exists [point]. split; [reflexivity|].
      constructor; [|constructor].
      exists coords, l. split; [now apply accepted_true | exact Hb].
  - unfold add_points_from_list.
    destruct (add_points_from cfg self 0 lst) as [[s1 o1]|e] eqn:Ea;
      [simpl|discriminate].
    intros [= <-].
    apply add_points_from_inv in Ea as (points & -> & _ & HF).
    exists points. split; [reflexivity|].
    remember (filter (fun ic => accepted cfg (snd ic)) (enumerate_from 0 lst))
      as entries eqn:He.
    assert (Hacc : Forall (fun ic => accepted cfg (snd ic) = true) entries).
    { subst entries. apply Forall_forall. intros ic Hin.
      now apply filter_In in Hin. }
    clear He. induction HF as [|point ic points entries Hb HF IH];
      constructor.
    + inversion Hacc; subst.
      exists (snd ic), (batch_label (fst ic)).
      split; [now apply accepted_true | exact Hb].
    + apply IH. now inversion Hacc.
Qed.

Lemma run_adds_built (cfg : Config) (ops : list op) :
  forall self self' : HyperSpace,
  run cfg self ops = Ok self' ->
  exists points,
    self' = fold_left spec_add points self /\ Forall (built cfg) points.
Proof.
  induction ops as [|o ops IH]; intros self self' H; simpl in H.
  - injection H as <-. now exists [].
  - destruct (step cfg self o) as [s1|e] eqn:Es; [simpl in H|discriminate].
    apply step_adds_built in Es as (pts1 & -> & HF1).
    apply IH in H as (pts2 & -> & HF2).
    exists (pts1 ++ pts2). split.
    + now rewrite fold_left_app.
    + apply Forall_app. now split.
Qed.

(** Every point of a collection grown from the empty one was built by
    [add_point]. *)
Lemma run_points_built (cfg : Config) (ops : list op) (self : HyperSpace) :
  run cfg init_space ops = Ok self -> Forall (built cfg) (points_data self).
Proof.
  intro H. apply run_adds_built in H as (points & -> & HF).
  now rewrite spec_add_all_points.
Qed.

(** The single fold of [short_point], evaluated. *)
Lemma add_point_short_point :
  add_point demo_config init_space short_point "P"
  = Ok (spec_add init_space short_point_built, []).
Proof.
  assert (Hl : (3 <= length (truncated demo_config short_point))%nat)
    by (unfold truncated; simpl; lia).
  rewrite (add_point_accepted demo_config init_space short_point "P"
             short_point_built Hl).
  - reflexivity.
  - unfold build_point, truncated, short_point. simpl skipn. simpl nth.
    cbv iota beta. simpl Z.gtb. cbv iota.
    rewrite first_fold_of_valid_point. reflexivity.
Qed.

Lemma run_short_point :
  run demo_config init_space [OpAddPoint short_point "P"]
  = Ok (spec_add init_space short_point_built).
Proof. simpl. now rewrite add_point_short_point. Qed.

(** ** Shape of the points of a collection *)

Lemma built_shape (cfg : Config) (p : PointData) :
  built cfg p ->
  exists coords base ts vs,
    (3 <= length (truncated cfg coords))%nat
    /\ fold_dims cfg 0 base (skipn 3 (truncated cfg coords)) = Ok (ts, vs)
    /\ map pos (trace p) = base :: map pos ts
    /\ length (trace p) = S (length ts)
    /\ vectors p = vs
    /\ length ts = length (skipn 3 (truncated cfg coords))
    /\ length vs = length ts.
Proof.
  intros (coords & l & Hl & Hb).
  apply build_point_inv in Hb as (ts & vs & Hf & ->).
  destruct (fold_dims_length _ _ _ _ _ _ Hf) as [Ht Hv].
  eexists coords, _, ts, vs. simpl.
  repeat split; [exact Hl | exact Hf | exact Ht | now rewrite Hv, Ht].
Qed.

(** A built point is a base step followed by the steps of the loop. *)
Lemma build_point_inv_built (cfg : Config) (p : PointData) :
  built cfg p ->
  exists base l extra_dims ts vs,
    fold_dims cfg 0 base extra_dims = Ok (ts, vs)
    /\ trace p = {| pos := base; step_label := l |} :: ts.
Proof.
  intros (coords & l & _ & Hb).
  apply build_point_inv in Hb as (ts & vs & Hf & ->).
  eexists _, _, _, ts, vs. split; [exact Hf | reflexivity].
Qed.

(** X1. In a collection grown from the empty one every point has a trace
    that is not empty and one vector per step after the first; vector [k]
    starts at position [k] of the trace and ends at position [k + 1]. *)
Theorem path_is_connected (cfg : Config) (ops : list op) (self : HyperSpace) :
  run cfg init_space ops = Ok self ->
  Forall
    (fun p =>
       trace p <> []
       /\ length (vectors p) = (length (trace p) - 1)%nat
       /\ forall (k : nat) (v : VectorLine),
            nth_error (vectors p) k = Some v ->
            nth_error (map pos (trace p)) k = Some (v_start v)
            /\ nth_error (map pos (trace p)) (S k) = Some (v_end v))
    (points_data self).
Proof.
  intro Hrun. eapply Forall_impl; [|exact (run_points_built cfg ops self Hrun)].
  intros p Hp.
  destruct (built_shape cfg p Hp)
    as (coords & base & ts & vs & _ & Hf & Hpos & Hlen & -> & Hts & Hvs).
  split; [intro E; rewrite E in Hlen; discriminate|].
  split; [rewrite Hlen, Hvs; simpl; lia|].
  intros k v Hk.
  assert (Hlt : (k < length (skipn 3 (truncated cfg coords)))%nat).
  { rewrite <- Hts, <- Hvs. apply nth_error_Some. now rewrite Hk. }
  destruct (nth_error (skipn 3 (truncated cfg coords)) k) as [m|] eqn:Em;
    [|apply nth_error_None in Em; lia].
  destruct (fold_dims_nth cfg _ _ _ _ _ Hf k m Em)
    as (prev & s & Hprev & Hs & _ & Hv).
  rewrite Hk in Hv. injection Hv as ->. simpl.
  rewrite Hpos. split; [exact Hprev|].
  simpl. now rewrite nth_error_map, Hs.
Qed.

Lemma path_is_connected_witness :
  run demo_config init_space [OpAddPoint short_point "P"]
  = Ok (spec_add init_space short_point_built)
  /\ Forall
       (fun p =>
          trace p <> []
          /\ length (vectors p) = (length (trace p) - 1)%nat
          /\ forall (k : nat) (v : VectorLine),
               nth_error (vectors p) k = Some v ->
               nth_error (map pos (trace p)) k = Some (v_start v)
               /\ nth_error (map pos (trace p)) (S k) = Some (v_end v))
       [short_point_built].
Proof.
  split; [exact run_short_point|].
  exact (path_is_connected demo_config [OpAddPoint short_point "P"] _
           run_short_point).
Defined.

Lemma max_folds_bound (points : list PointData) (n : nat) :
  Forall (fun p => (length (trace p) - 1 <= n)%nat) points ->
  (max_folds points <= n)%nat.
Proof.
  induction 1 as [|p points Hp _ IH]; simpl; lia.
Qed.

Lemma max_folds_In (points : list PointData) (p : PointData) :
  In p points -> (length (trace p) - 1 <= max_folds points)%nat.
Proof.
  induction points as [|q points IH]; simpl; [contradiction|].
  intros [->|Hin]; [lia|]. specialize (IH Hin). lia.
Qed.

(** X2. Under a limit that is not negative, no point of a collection grown
    from the empty one has more trace steps than [limit_dims - 2], and
    [max_dims_used] stays within [limit_dims - 3] (zero for a limit below
    three). *)
Theorem folds_bounded_by_limit (cfg : Config) (ops : list op)
  (self : HyperSpace) :
  (0 <= limit_dims cfg)%Z ->
  run cfg init_space ops = Ok self ->
  Forall (fun p => (Z.of_nat (length (trace p)) + 2 <= limit_dims cfg)%Z)
         (points_data self)
  /\ (Z.of_nat (max_dims_used self) <= Z.max 0 (limit_dims cfg - 3))%Z.
Proof.
  intros H0 Hrun.
  assert (HF : Forall
                 (fun p => (Z.of_nat (length (trace p)) + 2
                            <= limit_dims cfg)%Z) (points_data self)).
  { eapply Forall_impl; [|exact (run_points_built cfg ops self Hrun)].
    intros p Hp.
    destruct (built_shape cfg p Hp)
      as (coords & base & ts & vs & Hl & _ & _ & Hlen & _ & Hts & _).
    pose proof (truncated_length_le cfg coords H0) as Hle.
    rewrite length_skipn in Hts. lia. }
  split; [exact HF|].
  rewrite (run_invariant cfg ops init_space self eq_refl Hrun).
  assert (Hm : (max_folds (points_data self)
                <= Z.to_nat (Z.max 0 (limit_dims cfg - 3)))%nat).
  { apply max_folds_bound. eapply Forall_impl; [|exact HF].
    intros p Hp. simpl in Hp. lia. }
  lia.
Qed.

Lemma folds_bounded_by_limit_witness :
  (0 <= limit_dims demo_config)%Z
  /\ run demo_config init_space [OpAddPoint short_point "P"]
     = Ok (spec_add init_space short_point_built)
  /\ (Z.of_nat (max_dims_used (spec_add init_space short_point_built))
      <= Z.max 0 (limit_dims demo_config - 3))%Z.
Proof.
  assert (H0 : (0 <= limit_dims demo_config)%Z) by (simpl; lia).
  split; [exact H0|]. split; [exact run_short_point|].
  exact (proj2 (folds_bounded_by_limit demo_config
                  [OpAddPoint short_point "P"] _ H0 run_short_point)).
Defined.

Lemma add_points_from_all_rejected (cfg : Config)
  (list_of_points : list (list R)) :
  (forall coords, (length (truncated cfg coords) < 3)%nat) ->
  forall (self : HyperSpace) (i : nat),
  exists out, add_points_from cfg self i list_of_points = Ok (self, out).
Proof.
  intro Hrej.
  induction list_of_points as [|c rest IH]; intros self i; simpl.
  - eauto.
  - rewrite add_point_rejected by apply Hrej. simpl.
    destruct (IH self (S i)) as [out ->]. simpl. eauto.
Qed.

(** X3. Under a limit of 0, 1 or 2 every input is rejected: whatever is
    run, the collection stays as [__init__] left it. *)
Theorem small_limit_accepts_nothing (cfg : Config) (ops : list op) :
  (0 <= limit_dims cfg < 3)%Z ->
  run cfg init_space ops = Ok init_space.
Proof.
  intro Hlim.
  assert (Hrej : forall coords, (length (truncated cfg coords) < 3)%nat).
  { intro coords.
    pose proof (truncated_length_le cfg coords (proj1 Hlim)). lia. }
  generalize init_space as self.
  induction ops as [|o ops IH]; intro self; simpl; [reflexivity|].
  assert (Hstep : step cfg self o = Ok self).
  { destruct o as [coords l|lst]; simpl.
    - now rewrite add_point_rejected by apply Hrej.
    - unfold add_points_from_list.
      now destruct (add_points_from_all_rejected cfg lst Hrej self 0)
        as [out ->]. }
  rewrite Hstep. simpl. apply IH.
Qed.

Lemma small_limit_accepts_nothing_witness :
  (0 <= limit_dims flat_config < 3)%Z
  /\ run flat_config init_space
         [OpAddPoint valid_point "Valid Point";
          OpAddBatch [short_point; overloaded_point]]
     = Ok init_space.
Proof.
  assert (Hlim : (0 <= limit_dims flat_config < 3)%Z) by (simpl; lia).
  split; [exact Hlim|].
  exact (small_limit_accepts_nothing flat_config _ Hlim).
Defined.

(** ** A negative limit *)

Lemma truncated_negative (cfg : Config) (coords : list R) :
  (limit_dims cfg < 0)%Z ->
  truncated cfg coords
  = firstn (length coords - Z.to_nat (- limit_dims cfg)) coords.
Proof.
  intro Hneg. unfold truncated, Py.slice_to.
  replace (Z.of_nat (length coords) >? limit_dims cfg)%Z with true
    by (symmetry; rewrite Z.gtb_ltb; apply Z.ltb_lt; lia).
  now replace (limit_dims cfg <? 0)%Z with true
    by (symmetry; apply Z.ltb_lt; lia).
Qed.

(** X4. A negative [limit_dims] does not reject everything: every call
    prints the truncation warning first and goes on with the input less its
    last [- limit_dims] coordinates; when at least three are left the point
    built from them is added, otherwise nothing is. *)
Theorem negative_limit_drops_tail (cfg : Config) (self self' : HyperSpace)
  (coords : list R) (label : string) (out : list notice) :
  (limit_dims cfg < 0)%Z ->
  add_point cfg self coords label = Ok (self', out) ->
  let kept := (length coords - Z.to_nat (- limit_dims cfg))%nat in
  hd_error out
  = Some (TruncationWarning label (length coords) (limit_dims cfg))
  /\ ((kept < 3)%nat -> self' = self)
  /\ ((3 <= kept)%nat ->
      exists point,
        self' = spec_add self point
        /\ build_point cfg (firstn kept coords) label = Ok point
        /\ length (trace point) = (kept - 2)%nat).
Proof.
  intros Hneg Ha kept.
  pose proof (truncated_negative cfg coords Hneg) as Ht. fold kept in Ht.
  assert (Hlen : length (truncated cfg coords) = kept).
  { rewrite Ht, length_firstn. lia. }
  apply add_point_inv in Ha as [-> Hcases]. split.
  - unfold notices.
    now replace (Z.of_nat (length coords) >? limit_dims cfg)%Z with true
      by (symmetry; rewrite Z.gtb_ltb; apply Z.ltb_lt; lia).
  - destruct Hcases as [[Hrej ->]|(Hacc & point & Hb & ->)].
    + split; [reflexivity|]. intro Hk.
      unfold accepted in Hrej. apply negb_false_iff, Nat.ltb_lt in Hrej. lia.
    + apply accepted_true in Hacc. split; [lia|]. intros _.
      exists point. split; [reflexivity|]. rewrite <- Ht. split; [exact Hb|].
      apply build_point_folds in Hb as [-> _].
      rewrite length_skipn. lia.
Qed.

Lemma first_fold_of_short_point (cfg : Config) :
  base_slope cfg = 25 / 100 -> slope_growth cfg = 15 / 100 ->
  build_point cfg short_point "P" = Ok short_point_built.
Proof.
  intros Hb Hg.
  assert (Hc : candidate cfg 0 {| vx := 8; vy := 0; vz := 0 |} 2
               = {| vx := 8; vy := 0; vz := 2 |}).
  { unfold candidate, vadd, Py.deg2rad; simpl.
    replace ((90 + angle_step cfg * 0) * (PI / 180)) with (PI / 2) by field.
    rewrite cos_PI2, sin_PI2. f_equal; ring. }
  unfold build_point, short_point. simpl skipn. simpl nth.
  cbn [fold_dims]. rewrite Hc.
  rewrite clamp_kept; [reflexivity|].
  unfold radius, max_radius, _calculate_cone_slope; simpl.
  rewrite Hb, Hg.
  replace (0² + 2²) with (2²) by (unfold Rsqr; ring).
  rewrite sqrt_Rsqr by lra. rewrite Rabs_pos_eq by lra. lra.
Qed.

Lemma add_point_negative_limit :
  add_point negative_limit_config init_space long_point "P"
  = Ok (spec_add init_space short_point_built,
        [TruncationWarning "P" 5 (-1)]).
Proof.
  assert (Ht : truncated negative_limit_config long_point = short_point)
    by reflexivity.
  rewrite (add_point_accepted negative_limit_config init_space long_point "P"
             short_point_built).
  - reflexivity.
  - rewrite Ht. simpl. lia.
  - rewrite Ht. now apply first_fold_of_short_point.
Qed.

Lemma negative_limit_drops_tail_witness :
  (limit_dims negative_limit_config < 0)%Z
  /\ add_point negative_limit_config init_space long_point "P"
     = Ok (spec_add init_space short_point_built,
           [TruncationWarning "P" 5 (-1)])
  /\ exists point,
       spec_add init_space short_point_built = spec_add init_space point
       /\ build_point negative_limit_config short_point "P" = Ok point
       /\ length (trace point) = 2%nat.
Proof.
  assert (Hneg : (limit_dims negative_limit_config < 0)%Z) by (simpl; lia).
  split; [exact Hneg|]. split; [exact add_point_negative_limit|].
  apply (proj2 (proj2 (negative_limit_drops_tail negative_limit_config
                         init_space _ long_point "P" _ Hneg
                         add_point_negative_limit))).
  simpl. lia.
Defined.

(** ** How the trace is computed *)

Lemma append_inj_l (a b c : string) :
  (a ++ b)%string = (a ++ c)%string -> b = c.
Proof.
  induction a as [|x a IH]; simpl; [trivial|].
  intros [= H]. now apply IH.
Qed.

Lemma nth_firstn_lt {A : Type} (d : A) (n : nat) :
  forall (l : list A) (j : nat),
  (j < n)%nat -> nth j (firstn n l) d = nth j l d.
Proof.
  induction n as [|n IH]; intros l j Hj; [lia|].
  destruct l as [|a l]; [reflexivity|].
  destruct j as [|j]; [reflexivity|]. simpl. apply IH. lia.
Qed.

Lemma truncated_nth (cfg : Config) (coords : list R) (j : nat) :
  (j < length (truncated cfg coords))%nat ->
  nth j (truncated cfg coords) 0 = nth j coords 0.
Proof.
  destruct (truncated_prefix cfg coords) as [n ->].
  rewrite length_firstn. intro Hj. apply nth_firstn_lt. lia.
Qed.

(** An added point, seen from a successful call. *)
Lemma add_point_ok_built (cfg : Config) (self self' : HyperSpace)
  (coords : list R) (label : string) (out : list notice) :
  add_point cfg self coords label = Ok (self', out) ->
  (3 <= length (truncated cfg coords))%nat ->
  let base_pos :=
    {| vx := nth 0 coords 0; vy := nth 1 coords 0; vz := nth 2 coords 0 |} in
  exists ts vs,
    fold_dims cfg 0 base_pos (skipn 3 (truncated cfg coords)) = Ok (ts, vs)
    /\ self'
       = spec_add self
           {| label := label;
              trace := {| pos := base_pos;
                          step_label := (label ++ " (3D)")%string |} :: ts;
              vectors := vs |}.
Proof.
  intros Ha Hl base_pos.
  apply add_point_inv in Ha as [_ [[Hrej _]|(_ & point & Hb & ->)]].
  - unfold accepted in Hrej. apply negb_false_iff, Nat.ltb_lt in Hrej. lia.
  - apply build_point_inv in Hb as (ts & vs & Hf & ->).
    rewrite !truncated_nth in Hf |- * by lia.
    exists ts, vs. split; [exact Hf | reflexivity].
Qed.

(** X5. The trace of an added point is computed step by step: it has one
    step per coordinate kept from the third on, it starts at the first three
    coordinates, and step [k + 1] is the clamp, on the cone of index [k], of
    step [k] moved by the offset of coordinate [3 + k]; its label is
    ["D"], the dimension [4 + k], a space and the status of that clamp. *)
Theorem trace_recurrence (cfg : Config) (self self' : HyperSpace)
  (coords : list R) (label : string) (out : list notice) :
  add_point cfg self coords label = Ok (self', out) ->
  (3 <= length (truncated cfg coords))%nat ->
  exists point,
    self' = spec_add self point
    /\ length (trace point) = (length (truncated cfg coords) - 2)%nat
    /\ nth_error (trace point) 0
       = Some {| pos := {| vx := nth 0 coords 0; vy := nth 1 coords 0;
                           vz := nth 2 coords 0 |};
                 step_label := (label ++ " (3D)")%string |}
    /\ forall (k : nat) (m : R),
         nth_error (truncated cfg coords) (3 + k) = Some m ->
         exists s s',
           nth_error (trace point) k = Some s
           /\ nth_error (trace point) (S k) = Some s'
           /\ folds_to cfg k (pos s) m s'.
Proof.
  intros Ha Hl.
  destruct (add_point_ok_built cfg self self' coords label out Ha Hl)
    as (ts & vs & Hf & ->).
  eexists. split; [reflexivity|]. simpl.
  destruct (fold_dims_length _ _ _ _ _ _ Hf) as [Hts _].
  rewrite Hts, length_skipn.
  split; [lia|]. split; [reflexivity|].
  intros k m Hk.
  assert (Hk' : nth_error (skipn 3 (truncated cfg coords)) k = Some m)
    by (rewrite nth_error_skipn; exact Hk).
  destruct (fold_dims_nth cfg _ _ _ _ _ Hf k m Hk')
    as (prev & s' & Hprev & Hs' & Hfold & _).
  destruct k as [|k].
  - simpl in Hprev. injection Hprev as <-.
    eexists _, s'. repeat split; [exact Hs' | exact Hfold].
  - simpl in Hprev. rewrite nth_error_map in Hprev.
    destruct (nth_error ts k) as [s|] eqn:Es; [|discriminate].
    injection Hprev as <-.
    exists s, s'. repeat split; [exact Es | exact Hs' | exact Hfold].
Qed.

Lemma trace_recurrence_witness :
  add_point demo_config init_space short_point "P"
  = Ok (spec_add init_space short_point_built, [])
  /\ (3 <= length (truncated demo_config short_point))%nat
  /\ exists point,
       spec_add init_space short_point_built = spec_add init_space point
       /\ length (trace point) = 2%nat
       /\ forall (k : nat) (m : R),
            nth_error (truncated demo_config short_point) (3 + k) = Some m ->
            exists s s',
              nth_error (trace point) k = Some s
              /\ nth_error (trace point) (S k) = Some s'
              /\ folds_to demo_config k (pos s) m s'.
Proof.
  assert (Hl : (3 <= length (truncated demo_config short_point))%nat)
    by (unfold truncated; simpl; lia).
  split; [exact add_point_short_point|]. split; [exact Hl|].
  destruct (trace_recurrence demo_config init_space _ short_point "P" _
              add_point_short_point Hl) as (point & E & Hlen & _ & Hrec).
  exists point. split; [exact E|]. split; [exact Hlen | exact Hrec].
Defined.

Lemma short_candidate_kept :
  clamp demo_config 0 {| vx := 8; vy := 0; vz := 2 |}
  = Ok ({| vx := 8; vy := 0; vz := 2 |}, ""%string).
Proof.
  apply clamp_kept.
  unfold radius, max_radius, _calculate_cone_slope; simpl.
  replace (0² + 2²) with (2²) by (unfold Rsqr; ring).
  rewrite sqrt_Rsqr by lra. rewrite Rabs_pos_eq by lra. lra.
Qed.

(** X6. The status of a clamp tells whether the position was changed (the
    slopes being positive): it is ["(Clamped)"] exactly when the candidate
    lay outside the cone, and then the position returned differs from the
    candidate; otherwise it is empty and the candidate is returned. *)
Theorem clamp_status_accurate (cfg : Config) (i : nat) (c p : Vec3)
  (status : string) :
  positive_slopes cfg ->
  clamp cfg i c = Ok (p, status) ->
  (status = "(Clamped)"%string /\ p <> c /\ max_radius cfg i c < radius c)
  \/ (status = ""%string /\ p = c /\ radius c <= max_radius cfg i c).
Proof.
  intros Hs Hc.
  destruct (clamp_cases cfg i c Hs) as [[Hle E]|(Hlt & _ & E)];
    rewrite E in Hc; injection Hc as <- <-.
  - right. now repeat split.
  - left. repeat split; [|exact Hlt].
    intro Heq. pose proof (radius_clamped cfg i c Hs Hlt) as Hr.
    rewrite Heq in Hr. lra.
Qed.

Lemma clamp_status_accurate_witness :
  positive_slopes demo_config
  /\ clamp demo_config 0 {| vx := 8; vy := 0; vz := 2 |}
     = Ok ({| vx := 8; vy := 0; vz := 2 |}, ""%string)
  /\ radius {| vx := 8; vy := 0; vz := 2 |}
     <= max_radius demo_config 0 {| vx := 8; vy := 0; vz := 2 |}.
Proof.
  split; [exact demo_slopes_positive|]. split; [exact short_candidate_kept|].
  destruct (clamp_status_accurate demo_config 0 _ _ _ demo_slopes_positive
              short_candidate_kept) as [(E & _)|(_ & _ & H)];
    [discriminate E | exact H].
Defined.

Lemma candidate_dist (cfg : Config) (i : nat) (p : Vec3) (m : R) :
  dist p (candidate cfg i p m) = Rabs m.
Proof.
  unfold dist, candidate, vadd; simpl.
  set (a := Py.deg2rad (90 + angle_step cfg * INR i)).
  replace ((vx p + 0 - vx p)² + (vy p + m * cos a - vy p)²
           + (vz p + m * sin a - vz p)²)
    with (m² * ((sin a)² + (cos a)²)) by (unfold Rsqr; ring).
  rewrite sin2_cos2, Rmult_1_r. apply sqrt_Rsqr_abs.
Qed.

Lemma candidate_zero (cfg : Config) (i : nat) (p : Vec3) :
  candidate cfg i p 0 = p.
Proof. destruct p. unfold candidate, vadd; simpl. f_equal; ring. Qed.

Lemma clamp_unclamped (cfg : Config) (i : nat) (c p : Vec3) :
  clamp cfg i c = Ok (p, ""%string) -> p = c.
Proof.
  unfold clamp.
  destruct (Rgt_dec _ _); [|now intros [= <-]].
  destruct (checked_div _ _); simpl; discriminate.
Qed.

Lemma cone_slope_mono (cfg : Config) (i j : nat) :
  positive_slopes cfg -> (i <= j)%nat ->
  _calculate_cone_slope cfg (Z.of_nat i)
  <= _calculate_cone_slope cfg (Z.of_nat j).
Proof.
  intros [_ Hg] Hij. unfold _calculate_cone_slope.
  assert (IZR (Z.of_nat i + 1) <= IZR (Z.of_nat j + 1))
    by (apply IZR_le; lia).
  nra.
Qed.

Lemma max_radius_mono (cfg : Config) (i j : nat) (p : Vec3) :
  positive_slopes cfg -> (i <= j)%nat ->
  max_radius cfg i p <= max_radius cfg j p.
Proof.
  intros Hs Hij. unfold max_radius.
  apply Rmult_le_compat_l; [apply Rabs_pos | now apply cone_slope_mono].
Qed.

(** Consecutive steps of the trace a run of the loop from index 0 gives. *)
Lemma fold_dims_consecutive (cfg : Config) (extra_dims : list R)
  (base : Vec3) (l : string) ts vs :
  fold_dims cfg 0 base extra_dims = Ok (ts, vs) ->
  forall (k : nat) (m : R) (s s' : TraceStep),
    nth_error extra_dims k = Some m ->
    nth_error ({| pos := base; step_label := l |} :: ts) k = Some s ->
    nth_error ({| pos := base; step_label := l |} :: ts) (S k) = Some s' ->
    folds_to cfg k (pos s) m s'.
Proof.
  intros Hf k m s s' Hk Hs Hs'.
  destruct (fold_dims_nth cfg _ _ _ _ _ Hf k m Hk)
    as (prev & s1 & Hprev & Hs1 & Hfold & _).
  simpl in Hs'. rewrite Hs1 in Hs'. injection Hs' as <-.
  change (base :: map pos ts)
    with (map pos ({| pos := base; step_label := l |} :: ts)) in Hprev.
  rewrite nth_error_map, Hs in Hprev. now injection Hprev as <-.
Qed.

(** X7. A fold whose step is labelled without ["(Clamped)"] moved the
    position by exactly the absolute value of its coordinate, within the
    plane of constant x. *)
Theorem unclamped_fold_moves_by_magnitude (cfg : Config)
  (self self' : HyperSpace) (coords : list R) (label : string)
  (out : list notice) :
  add_point cfg self coords label = Ok (self', out) ->
  (3 <= length (truncated cfg coords))%nat ->
  exists point,
    self' = spec_add self point
    /\ forall (k : nat) (m : R) (s s' : TraceStep),
         nth_error (truncated cfg coords) (3 + k) = Some m ->
         nth_error (trace point) k = Some s ->
         nth_error (trace point) (S k) = Some s' ->
         step_label s' = ("D" ++ Py.str (4 + k) ++ " ")%string ->
         vx (pos s') = vx (pos s) /\ dist (pos s) (pos s') = Rabs m.
Proof.
  intros Ha Hl.
  destruct (add_point_ok_built cfg self self' coords label out Ha Hl)
    as (ts & vs & Hf & ->).
  eexists. split; [reflexivity|].
  intros k m s s' Hk Hs Hs' Hlab.
  assert (Hk' : nth_error (skipn 3 (truncated cfg coords)) k = Some m)
    by (rewrite nth_error_skipn; exact Hk).
  destruct (fold_dims_consecutive cfg _ _ _ _ _ Hf k m s s' Hk' Hs Hs')
    as (status & Hc & Hlab').
  rewrite Hlab in Hlab'.
  change ("D" ++ Py.str (4 + k) ++ " ")%string
    with ("D" ++ Py.str (4 + k) ++ " " ++ "")%string in Hlab'.
  do 3 apply append_inj_l in Hlab'. subst status.
  apply clamp_unclamped in Hc. rewrite Hc.
  split; [apply candidate_x | apply candidate_dist].
Qed.

Lemma unclamped_fold_moves_by_magnitude_witness :
  add_point demo_config init_space short_point "P"
  = Ok (spec_add init_space short_point_built, [])
  /\ (3 <= length (truncated demo_config short_point))%nat
  /\ exists point,
       spec_add init_space short_point_built = spec_add init_space point
       /\ forall (k : nat) (m : R) (s s' : TraceStep),
            nth_error (truncated demo_config short_point) (3 + k) = Some m ->
            nth_error (trace point) k = Some s ->
            nth_error (trace point) (S k) = Some s' ->
            step_label s' = ("D" ++ Py.str (4 + k) ++ " ")%string ->
            vx (pos s') = vx (pos s) /\ dist (pos s) (pos s') = Rabs m.
Proof.
  assert (Hl : (3 <= length (truncated demo_config short_point))%nat)
    by (unfold truncated; simpl; lia).
  split; [exact add_point_short_point|]. split; [exact Hl|].
  exact (unclamped_fold_moves_by_magnitude demo_config init_space _
           short_point "P" _ add_point_short_point Hl).
Defined.

(** X8. A coordinate of zero folds to the position before it (the slopes
    being positive): from the second fold on, and at the first fold when the
    base position lies within the first cone, the step repeats the previous
    position and is not marked as clamped. *)
Theorem zero_magnitude_fold_rests (cfg : Config) (self self' : HyperSpace)
  (coords : list R) (label : string) (out : list notice) :
  positive_slopes cfg ->
  add_point cfg self coords label = Ok (self', out) ->
  (3 <= length (truncated cfg coords))%nat ->
  exists point,
    self' = spec_add self point
    /\ forall (k : nat) (s s' : TraceStep),
         nth_error (truncated cfg coords) (3 + k) = Some 0 ->
         nth_error (trace point) k = Some s ->
         nth_error (trace point) (S k) = Some s' ->
         (1 <= k)%nat \/ radius (pos s) <= max_radius cfg 0 (pos s) ->
         pos s' = pos s
         /\ step_label s' = ("D" ++ Py.str (4 + k) ++ " ")%string.
Proof.
  intros Hslopes Ha Hl.
  destruct (add_point_ok_built cfg self self' coords label out Ha Hl)
    as (ts & vs & Hf & ->).
  eexists. split; [reflexivity|].
  intros k s s' Hk Hs Hs' Hin.
  assert (Hk' : nth_error (skipn 3 (truncated cfg coords)) k = Some 0)
    by (rewrite nth_error_skipn; exact Hk).
  destruct (fold_dims_consecutive cfg _ _ _ _ _ Hf k 0 s s' Hk' Hs Hs')
    as (status & Hc & Hlab).
  assert (Hs_in : radius (pos s) <= max_radius cfg k (pos s)).
  { destruct k as [|k].
    - destruct Hin as [Hk1|Hr]; [lia | exact Hr].
    - simpl in Hs.
      pose proof (fold_dims_contained cfg _ Hslopes _ _ _ _ Hf k s Hs) as Hr.
      simpl in Hr.
      apply (Rle_trans _ _ _ Hr). apply max_radius_mono; [exact Hslopes|lia]. }
  rewrite candidate_zero, (clamp_kept cfg k (pos s) Hs_in) in Hc.
  injection Hc as <- <-. split; [reflexivity | exact Hlab].
Qed.

Lemma zero_magnitude_fold_rests_witness :
  positive_slopes demo_config
  /\ (3 <= length (truncated demo_config resting_point))%nat
  /\ exists self' out point,
       add_point demo_config init_space resting_point "P" = Ok (self', out)
       /\ self' = spec_add init_space point
       /\ forall (s s' : TraceStep),
            nth_error (trace point) 1 = Some s ->
            nth_error (trace point) 2 = Some s' ->
            pos s' = pos s /\ step_label s' = "D5 "%string.
Proof.
  assert (Hl : (3 <= length (truncated demo_config resting_point))%nat)
    by (unfold truncated; simpl; lia).
  split; [exact demo_slopes_positive|]. split; [exact Hl|].
  destruct (add_point_returns demo_config init_space resting_point "P"
              demo_slopes_positive) as (self' & out & Ha).
  destruct (zero_magnitude_fold_rests demo_config init_space self'
              resting_point "P" out demo_slopes_positive Ha Hl)
    as (point & E & H).
  exists self', out, point. split; [exact Ha|]. split; [exact E|].
  intros s s' Hs Hs'.
  apply (H 1%nat s s'); [reflexivity | exact Hs | exact Hs' | left; lia].
Defined.

(** ** The collection as a whole *)

(** X9. In a collection grown from the empty one (positive slopes) every
    folded step of every point lies within the widest cone [draw] shows,
    that of index [max_dims_used - 1]; in particular a point with a fold
    leaves [max_dims_used] at one or more. *)
Theorem folds_within_widest_cone (cfg : Config) (ops : list op)
  (self : HyperSpace) :
  positive_slopes cfg ->
  run cfg init_space ops = Ok self ->
  Forall
    (fun p =>
       forall (k : nat) (s : TraceStep),
         (1 <= k)%nat -> nth_error (trace p) k = Some s ->
         (k <= max_dims_used self)%nat
         /\ radius (pos s)
            <= Rabs (vx (pos s))
               * _calculate_cone_slope cfg
                   (Z.of_nat (max_dims_used self) - 1))
    (points_data self).
Proof.
  intros Hs Hrun. apply Forall_forall. intros p Hin.
  pose proof (run_points_built cfg ops self Hrun) as Hb.
  rewrite Forall_forall in Hb. specialize (Hb p Hin).
  apply build_point_inv_built in Hb as (base & l & ms & ts & vs & Hf & Htr).
  intros k s Hk Hnth.
  assert (Hmax : (k <= max_dims_used self)%nat).
  { rewrite (run_invariant cfg ops init_space self eq_refl Hrun).
    pose proof (max_folds_In _ _ Hin) as Hle.
    assert (k < length (trace p))%nat
      by (apply nth_error_Some; now rewrite Hnth).
    lia. }
  split; [exact Hmax|].
  rewrite Htr in Hnth. destruct k as [|k]; [lia|]. simpl in Hnth.
  pose proof (fold_dims_contained cfg _ Hs _ _ _ _ Hf k s Hnth) as Hr.
  simpl in Hr.
  pose proof (max_radius_mono cfg k (max_dims_used self - 1) (pos s) Hs)
    as Hm.
  unfold max_radius in Hr, Hm.
  replace (Z.of_nat (max_dims_used self) - 1)%Z
    with (Z.of_nat (max_dims_used self - 1)) by lia.
  apply (Rle_trans _ _ _ Hr). apply Hm. lia.
Qed.

Lemma folds_within_widest_cone_witness :
  positive_slopes demo_config
  /\ run demo_config init_space [OpAddPoint short_point "P"]
     = Ok (spec_add init_space short_point_built)
  /\ radius {| vx := 8; vy := 0; vz := 2 |}
     <= Rabs 8 * _calculate_cone_slope demo_config (1 - 1).
Proof.
  split; [exact demo_slopes_positive|]. split; [exact run_short_point|].
  pose proof (folds_within_widest_cone demo_config _ _ demo_slopes_positive
                run_short_point) as H.
  apply Forall_inv in H.
  exact (proj2 (H 1%nat _ (le_n 1) eq_refl)).
Defined.

(** X10. No operation removes or changes a point: after any run, from any
    state, the points that were there are still the first ones, in their
    order, and [max_dims_used] is not lower than before. *)
Theorem collection_only_grows (cfg : Config) (ops : list op)
  (self self' : HyperSpace) :
  run cfg self ops = Ok self' ->
  exists points,
    points_data self' = points_data self ++ points
    /\ (max_dims_used self <= max_dims_used self')%nat.
Proof.
  intro Hrun. apply run_adds_built in Hrun as (points & -> & _).
  exists points. split; [apply spec_add_all_points|].
  rewrite spec_add_all_max. lia.
Qed.

Lemma collection_only_grows_witness :
  run demo_config init_space [OpAddPoint short_point "P"]
  = Ok (spec_add init_space short_point_built)
  /\ exists points,
       points_data (spec_add init_space short_point_built)
       = points_data init_space ++ points
       /\ (max_dims_used init_space
           <= max_dims_used (spec_add init_space short_point_built))%nat.
Proof.
  split; [exact run_short_point|].
  exact (collection_only_grows demo_config _ _ _ run_short_point).
Defined.

(** X11. A batch of two lists put end to end is the batch of the first
    followed by the loop over the second with the count of labels carried
    on; the notices come in the same order. *)
Theorem batch_of_concatenation (cfg : Config) (self : HyperSpace)
  (l1 l2 : list (list R)) :
  add_points_from_list cfg self (l1 ++ l2)
  = ('(self1, out1) <- add_points_from_list cfg self l1 ;;
     '(self2, out2) <- add_points_from cfg self1 (length l1) l2 ;;
     Ok (self2, out1 ++ out2)).
Proof.
  unfold add_points_from_list.
  change (length l1) with (0 + length l1)%nat.
  generalize 0%nat as i. revert self.
  induction l1 as [|c l1 IH]; intros self i; simpl.
  - rewrite Nat.add_0_r.
    destruct (add_points_from cfg self i l2) as [[s o]|e]; reflexivity.
  - destruct (add_point cfg self c (batch_label i)) as [[s1 o1]|e]; simpl;
      [|reflexivity].
    rewrite IH.
    replace (S i + length l1)%nat with (i + S (length l1))%nat by lia.
    destruct (add_points_from cfg s1 (S i) l1) as [[s2 o2]|e]; simpl;
      [|reflexivity].
    destruct (add_points_from cfg s2 (i + S (length l1)) l2) as [[s3 o3]|e];
      simpl; [now rewrite app_assoc | reflexivity].
Qed.

(** ** Arrays *)

Module NpFacts.

Lemma linspace_length (start stop : R) (num : nat) :
  length (Np.linspace start stop num) = num.
Proof. unfold Np.linspace. now rewrite length_map, length_seq. Qed.

Lemma linspace_nth (start stop : R) (num k : nat) :
  (k < num)%nat ->
  nth k (Np.linspace start stop num) 0
  = INR k * ((stop - start) / INR (num - 1)) + start.
Proof.
  intro Hk. unfold Np.linspace.
  set (f := fun j : nat => INR j * ((stop - start) / INR (num - 1)) + start).
  rewrite (nth_indep _ 0 (f 0%nat)) by now rewrite length_map, length_seq.
  rewrite map_nth, seq_nth by exact Hk. reflexivity.
Qed.

Lemma shaped_row (rows cols : nat) (a : Np.array2) (r : nat) :
  Np.shaped rows cols a -> (r < rows)%nat -> length (nth r a []) = cols.
Proof.
  intros [Hl HF] Hr. rewrite Forall_forall in HF.
  apply HF, nth_In. lia.
Qed.

Lemma meshgrid_shaped (x y : list R) :
  Np.shaped (length y) (length x) (fst (Np.meshgrid x y))
  /\ Np.shaped (length y) (length x) (snd (Np.meshgrid x y)).
Proof.
  unfold Np.shaped, Np.meshgrid; simpl. rewrite !length_map.
  repeat split; apply Forall_forall; intros row Hin;
    apply in_map_iff in Hin as (yv & <- & _);
    [reflexivity | apply length_map].
Qed.

Lemma meshgrid_get (x y : list R) (r c : nat) :
  (r < length y)%nat -> (c < length x)%nat ->
  Np.get (fst (Np.meshgrid x y)) r c = nth c x 0
  /\ Np.get (snd (Np.meshgrid x y)) r c = nth r y 0.
Proof.
  intros Hr Hc. unfold Np.get, Np.meshgrid; simpl. split.
  - set (f := fun _ : R => x).
    rewrite (nth_indep _ [] (f 0)) by now rewrite length_map.
    now rewrite map_nth.
  - set (f := fun yv : R => map (fun _ : R => yv) x).
    rewrite (nth_indep _ [] (f 0)) by now rewrite length_map.
    rewrite map_nth. unfold f.
    set (g := fun _ : R => nth r y 0).
    rewrite (nth_indep _ 0 (g 0)) by now rewrite length_map.
    now rewrite map_nth.
Qed.

Lemma map2_shaped (f : R -> R) (rows cols : nat) (a : Np.array2) :
  Np.shaped rows cols a -> Np.shaped rows cols (Np.map2 f a).
Proof.
  intros [Hl HF]. unfold Np.shaped, Np.map2. rewrite length_map.
  split; [exact Hl|].
  apply Forall_forall. intros row Hin.
  apply in_map_iff in Hin as (row0 & <- & Hin0).
  rewrite length_map. rewrite Forall_forall in HF. now apply HF.
Qed.

Lemma map2_get (f : R -> R) (rows cols : nat) (a : Np.array2) (r c : nat) :
  Np.shaped rows cols a -> (r < rows)%nat -> (c < cols)%nat ->
  Np.get (Np.map2 f a) r c = f (Np.get a r c).
Proof.
  intros Hs Hr Hc. unfold Np.get, Np.map2.
  change (@nil R) with (map f []) at 1. rewrite map_nth.
  rewrite (nth_indep _ 0 (f 0))
    by (rewrite length_map, (shaped_row rows cols a r Hs Hr); exact Hc).
  now rewrite map_nth.
Qed.

Lemma zip2_get (f : R -> R -> R) (rows cols : nat) (a b : Np.array2)
  (r c : nat) :
  Np.shaped rows cols a -> Np.shaped rows cols b ->
  (r < rows)%nat -> (c < cols)%nat ->
  Np.get (Np.zip2 f a b) r c = f (Np.get a r c) (Np.get b r c).
Proof.
  intros Ha Hb Hr Hc. unfold Np.get, Np.zip2.
  set (g := fun rows0 : list R * list R =>
              map (fun xy : R * R => f (fst xy) (snd xy))
                  (combine (fst rows0) (snd rows0))).
  change (@nil R) with (g ([], [])) at 1. rewrite map_nth.
  rewrite combine_nth by (destruct Ha as [-> _], Hb as [-> _]; reflexivity).
  unfold g; simpl.
  pose proof (shaped_row rows cols a r Ha Hr) as Hra.
  pose proof (shaped_row rows cols b r Hb Hr) as Hrb.
  set (k := fun xy : R * R => f (fst xy) (snd xy)).
  rewrite (nth_indep _ 0 (k (0, 0)))
    by (rewrite length_map, length_combine, Hra, Hrb; lia).
  rewrite map_nth, combine_nth by congruence. reflexivity.
Qed.

End NpFacts.

(** ** [draw] *)

Lemma last_item_none {A : Type} (l : list A) :
  last_item l = None <-> l = [].
Proof.
  induction l as [|a [|b l] IH]; simpl in *; split; intro H;
    try reflexivity; try discriminate.
  apply IH in H. discriminate.
Qed.

Lemma last_item_cons {A : Type} (a : A) (l : list A) :
  last_item (a :: l)
  = match last_item l with Some b => Some b | None => Some a end.
Proof.
  destruct l as [|b l]; [reflexivity|].
  change (last_item (a :: b :: l)) with (last_item (b :: l)).
  destruct (last_item (b :: l)) eqn:E; [reflexivity|].
  apply last_item_none in E. discriminate.
Qed.

Lemma last_item_map {A B : Type} (f : A -> B) (l : list A) :
  last_item (map f l) = option_map f (last_item l).
Proof.
  induction l as [|a [|b l] IH]; try reflexivity.
  exact IH.
Qed.

Lemma point_traces_none (pt : PointData) :
  point_traces pt = None <-> trace pt = [].
Proof.
  unfold point_traces.
  destruct (last_item (trace pt)) as [s|] eqn:E; split; intro H;
    try discriminate; try reflexivity.
  - apply last_item_none in H. congruence.
  - now apply last_item_none.
Qed.

Lemma point_traces_length (pt : PointData) (traces : list PlotTrace) :
  point_traces pt = Some traces ->
  length traces = S (length (vectors pt)).
Proof.
  unfold point_traces. destruct (last_item (trace pt)); [|discriminate].
  intros [= <-]. rewrite length_app, length_map. simpl. lia.
Qed.

Lemma points_traces_none (points : list PointData) :
  points_traces points = None <-> Exists (fun p => trace p = []) points.
Proof.
  induction points as [|p points IH]; simpl.
  - split; [discriminate | intro H; inversion H].
  - destruct (point_traces p) as [t|] eqn:Ep.
    + destruct (points_traces points) as [more|].
      * split; [discriminate|]. intro H. inversion H as [? ? He|? ? Hr]; subst.
        -- apply point_traces_none in He. congruence.
        -- apply IH in Hr. discriminate.
      * split; [|reflexivity]. intros _. apply Exists_cons_tl. now apply IH.
    + split; [|reflexivity]. intros _. apply Exists_cons_hd.
      now apply point_traces_none.
Qed.

Lemma points_traces_length (points : list PointData) :
  forall traces,
  points_traces points = Some traces ->
  length traces
  = (length points + list_sum (map (fun p => length (vectors p)) points))%nat.
Proof.
  induction points as [|p points IH]; simpl; intros traces H.
  - now injection H as <-.
  - destruct (point_traces p) as [t|] eqn:Ep; [|discriminate].
    destruct (points_traces points) as [more|]; [|discriminate].
    injection H as <-. rewrite length_app, (IH more eq_refl).
    apply point_traces_length in Ep. lia.
Qed.

(** The data of the figure, when [draw] returns. *)
Lemma draw_data (cfg : Config) (self : HyperSpace) (d : Drawing) :
  draw cfg self = Some d ->
  let u := Np.linspace 0 (2 * PI) 60 in
  let v := Np.linspace 0 (h cfg) 40 in
  let U := fst (Np.meshgrid u v) in
  let V := snd (Np.meshgrid u v) in
  exists traces,
    points_traces (points_data self) = Some traces
    /\ fig_data (figure d)
       = base_surface cfg U V
         :: map (cone_surface cfg U V) (seq 0 (max_dims_used self)) ++ traces.
Proof.
  unfold draw. simpl.
  destruct (points_traces (points_data self)) as [traces|]; [|discriminate].
  intros [= <-]. now exists traces.
Qed.

(** X12. [draw] fails exactly when some point of the collection has an
    empty trace (the [IndexError] of [pt['trace'][-1]]); otherwise it
    returns a figure with the base surface, one surface per dimension used
    and, for every point, one line per vector and one marker. *)
Theorem draw_fails_iff_empty_trace (cfg : Config) (self : HyperSpace) :
  (draw cfg self = None <-> Exists (fun p => trace p = []) (points_data self))
  /\ (forall d : Drawing,
        draw cfg self = Some d ->
        length (fig_data (figure d))
        = (1 + max_dims_used self + length (points_data self)
           + list_sum (map (fun p => length (vectors p)) (points_data self)))%nat
        /\ html_file d = "safe_hyperspace.html"%string).
Proof.
  split.
  - rewrite <- points_traces_none. unfold draw. simpl.
    destruct (points_traces (points_data self)); split;
      try discriminate; reflexivity.
  - intros d Hd. split.
    + destruct (draw_data cfg self d Hd) as (traces & Ht & ->).
      simpl. rewrite length_app, length_map, length_seq.
      rewrite (points_traces_length _ _ Ht). lia.
    + unfold draw in Hd. simpl in Hd.
      destruct (points_traces (points_data self)); [|discriminate].
      now injection Hd as <-.
Qed.

(** X13. On a collection grown from the empty one [draw] never fails. *)
Theorem draw_after_run (cfg : Config) (ops : list op) (self : HyperSpace) :
  run cfg init_space ops = Ok self ->
  exists d : Drawing, draw cfg self = Some d.
Proof.
  intro Hrun.
  destruct (draw cfg self) as [d|] eqn:Ed; [now exists d|].
  exfalso.
  assert (Hex : Exists (fun p => trace p = []) (points_data self)).
  { apply points_traces_none. unfold draw in Ed. simpl in Ed.
    destruct (points_traces (points_data self)); [discriminate|reflexivity]. }
  apply Exists_exists in Hex as (p & Hin & He).
  pose proof (run_points_built cfg ops self Hrun) as Hb.
  rewrite Forall_forall in Hb.
  destruct (build_point_inv_built cfg p (Hb p Hin))
    as (base & l & ms & ts & vs & _ & Htr).
  congruence.
Qed.

Lemma draw_after_run_witness :
  run demo_config init_space [OpAddPoint short_point "P"]
  = Ok (spec_add init_space short_point_built)
  /\ exists d : Drawing,
       draw demo_config (spec_add init_space short_point_built) = Some d.
Proof.
  split; [exact run_short_point|].
  exact (draw_after_run demo_config _ _ run_short_point).
Defined.

Lemma draw_returns (cfg : Config) (self : HyperSpace)
  (traces : list PlotTrace) :
  points_traces (points_data self) = Some traces ->
  exists d : Drawing, draw cfg self = Some d.
Proof.
  intro H. unfold draw. destruct (Np.meshgrid _ _) as [U V].
  rewrite H. eauto.
Qed.

Lemma draw_short_point :
  exists d : Drawing,
    draw demo_config (spec_add init_space short_point_built) = Some d.
Proof. eapply draw_returns. reflexivity. Qed.

Lemma draw_fails_iff_empty_trace_witness :
  exists d : Drawing,
    draw demo_config (spec_add init_space short_point_built) = Some d
    /\ length (fig_data (figure d)) = 4%nat.
Proof.
  destruct draw_short_point as [d Hd].
  exists d. split; [exact Hd|].
  exact (proj1 (proj2 (draw_fails_iff_empty_trace demo_config
                         (spec_add init_space short_point_built)) d Hd)).
Defined.

(** The surface of the cone of index [i] is trace [i + 1] of the figure. *)
Lemma draw_cone_trace (cfg : Config) (self : HyperSpace) (d : Drawing)
  (i : nat) :
  draw cfg self = Some d -> (i < max_dims_used self)%nat ->
  let u := Np.linspace 0 (2 * PI) 60 in
  let v := Np.linspace 0 (h cfg) 40 in
  nth_error (fig_data (figure d)) (S i)
  = Some (cone_surface cfg (fst (Np.meshgrid u v)) (snd (Np.meshgrid u v)) i).
Proof.
  intros Hd Hi u v.
  destruct (draw_data cfg self d Hd) as (traces & _ & ->).
  cbn [nth_error]. fold u v.
  rewrite nth_error_app1 by (rewrite length_map, length_seq; exact Hi).
  rewrite nth_error_map, nth_error_seq.
  apply Nat.ltb_lt in Hi. now rewrite Hi.
Qed.

(** A point of the mesh of a surface of slope [s]: its x is the grid value,
    and it lies at the radius [|x * s|] around the axis. *)
Lemma surface_mesh_point (cfg : Config) (s : R) (r c : nat) :
  (r < 40)%nat -> (c < 60)%nat ->
  let u := Np.linspace 0 (2 * PI) 60 in
  let v := Np.linspace 0 (h cfg) 40 in
  let U := fst (Np.meshgrid u v) in
  let V := snd (Np.meshgrid u v) in
  let Rs := Np.map2 (fun x => x * s) V in
  let p := {| vx := Np.get V r c;
              vy := Np.get (Np.zip2 Rmult Rs (Np.map2 cos U)) r c;
              vz := Np.get (Np.zip2 Rmult Rs (Np.map2 sin U)) r c |} in
  vx p = INR r * (h cfg / INR 39)
  /\ radius p = Rabs (vx p * s).
Proof.
  intros Hr Hc u v U V Rs p.
  assert (Hu : length u = 60%nat) by apply NpFacts.linspace_length.
  assert (Hv : length v = 40%nat) by apply NpFacts.linspace_length.
  destruct (NpFacts.meshgrid_shaped u v) as [HU HV].
  rewrite Hu, Hv in HU, HV. fold U in HU. fold V in HV.
  assert (HRs : Np.shaped 40 60 Rs) by now apply NpFacts.map2_shaped.
  assert (Hx : Np.get V r c = INR r * (h cfg / INR 39)).
  { destruct (NpFacts.meshgrid_get u v r c) as [_ E]; [lia..|].
    fold V in E. rewrite E. unfold v.
    rewrite NpFacts.linspace_nth by exact Hr.
    change (40 - 1)%nat with 39%nat. unfold Rdiv. ring. }
  split; [exact Hx|].
  unfold radius, p; cbn [vx vy vz].
  rewrite !(NpFacts.zip2_get Rmult 40 60) by
    (try exact HRs; try (now apply NpFacts.map2_shaped); assumption).
  unfold Rs.
  rewrite !(NpFacts.map2_get _ 40 60) by assumption.
  set (x := Np.get V r c). set (a := Np.get U r c).
  replace ((x * s * cos a)² + (x * s * sin a)²)
    with ((x * s)² * ((sin a)² + (cos a)²)) by (unfold Rsqr; ring).
  rewrite sin2_cos2, Rmult_1_r. apply sqrt_Rsqr_abs.
Qed.

(** X14. For every dimension used, [draw] adds the surface named
    ["Cone D"] and the dimension, coloured by its index modulo five, and
    (the slopes being positive) every point of its 40 by 60 mesh lies on the
    clamping cone of that dimension: at [x = r * h / 39], at the radius
    [|x| * cone_slope(i)] around the axis. *)
Theorem cone_surfaces_lie_on_cones (cfg : Config) (self : HyperSpace)
  (d : Drawing) (i : nat) :
  positive_slopes cfg ->
  draw cfg self = Some d ->
  (i < max_dims_used self)%nat ->
  exists gx gy gz,
    nth_error (fig_data (figure d)) (S i)
    = Some (Surface gx gy gz (5 / 100) (nth (i mod 5) colors ""%string)
                    false ("Cone D" ++ Py.str (4 + i))%string)
    /\ forall r c : nat,
         (r < 40)%nat -> (c < 60)%nat ->
         let p := {| vx := Np.get gx r c; vy := Np.get gy r c;
                     vz := Np.get gz r c |} in
         vx p = INR r * (h cfg / INR 39)
         /\ radius p = max_radius cfg i p.
Proof.
  intros Hs Hd Hi.
  rewrite (draw_cone_trace cfg self d i Hd Hi).
  unfold cone_surface. eexists _, _, _. split; [reflexivity|].
  intros r c Hr Hc.
  destruct (surface_mesh_point cfg (_calculate_cone_slope cfg (Z.of_nat i))
              r c Hr Hc) as [Hx Hrad].
  split; [exact Hx|].
  cbv zeta. rewrite Hrad. cbn [vx]. unfold max_radius. cbn [vx].
  rewrite Rabs_mult. f_equal.
  apply Rabs_pos_eq. left. now apply cone_slope_pos.
Qed.

Lemma cone_surfaces_lie_on_cones_witness :
  positive_slopes demo_config
  /\ (0 < max_dims_used (spec_add init_space short_point_built))%nat
  /\ exists d gx gy gz,
       draw demo_config (spec_add init_space short_point_built) = Some d
       /\ nth_error (fig_data (figure d)) 1
          = Some (Surface gx gy gz (5 / 100) "Reds" false "Cone D4").
Proof.
  assert (Hi : (0 < max_dims_used (spec_add init_space short_point_built))%nat)
    by (simpl; lia).
  split; [exact demo_slopes_positive|]. split; [exact Hi|].
  destruct draw_short_point as [d Hd].
  destruct (cone_surfaces_lie_on_cones demo_config _ d 0
              demo_slopes_positive Hd Hi) as (gx & gy & gz & Hn & _).
  exists d, gx, gy, gz. split; [exact Hd | exact Hn].
Defined.

(** X15. The first trace of the figure is the surface ["3D Base"], and
    (the slopes being positive) every point of its mesh lies at the radius
    [|x| * base_slope], within the cone of every extra dimension. *)
Theorem base_surface_within_cones (cfg : Config) (self : HyperSpace)
  (d : Drawing) :
  positive_slopes cfg ->
  draw cfg self = Some d ->
  exists gx gy gz,
    nth_error (fig_data (figure d)) 0
    = Some (Surface gx gy gz (1 / 10) "Blues" false "3D Base")
    /\ forall r c : nat,
         (r < 40)%nat -> (c < 60)%nat ->
         let p := {| vx := Np.get gx r c; vy := Np.get gy r c;
                     vz := Np.get gz r c |} in
         radius p = Rabs (vx p) * base_slope cfg
         /\ forall i : nat, radius p <= max_radius cfg i p.
Proof.
  intros Hs Hd.
  destruct (draw_data cfg self d Hd) as (traces & _ & ->).
  unfold base_surface. cbn [nth_error]. eexists _, _, _.
  split; [reflexivity|].
  intros r c Hr Hc.
  destruct (surface_mesh_point cfg (base_slope cfg) r c Hr Hc) as [_ Hrad].
  cbv zeta. cbv zeta in Hrad. rewrite Hrad. cbn [vx].
  rewrite Rabs_mult, (Rabs_pos_eq (base_slope cfg)) by (left; apply Hs).
  split; [reflexivity|].
  intro i. unfold max_radius. cbn [vx].
  apply Rmult_le_compat_l; [apply Rabs_pos|].
  destruct Hs as [Hb Hg]. unfold _calculate_cone_slope.
  assert (0 < IZR (Z.of_nat i + 1)) by (apply IZR_lt; lia). nra.
Qed.

Lemma base_surface_within_cones_witness :
  positive_slopes demo_config
  /\ exists d gx gy gz,
       draw demo_config (spec_add init_space short_point_built) = Some d
       /\ nth_error (fig_data (figure d)) 0
          = Some (Surface gx gy gz (1 / 10) "Blues" false "3D Base").
Proof.
  split; [exact demo_slopes_positive|].
  destruct draw_short_point as [d Hd].
  destruct (base_surface_within_cones demo_config _ d
              demo_slopes_positive Hd) as (gx & gy & gz & Hn & _).
  exists d, gx, gy, gz. split; [exact Hd | exact Hn].
Defined.

(** X16. Every fold a point of the collection has is shown with its cone:
    after any run from the empty collection, vector [k] of a point is named
    after dimension [4 + k], the figure [draw] returns has the surface of
    that dimension's cone, and (the slopes being positive) the vector ends
    within that cone. *)
Theorem every_fold_has_its_cone (cfg : Config) (ops : list op)
  (self : HyperSpace) (d : Drawing) :
  positive_slopes cfg ->
  run cfg init_space ops = Ok self ->
  draw cfg self = Some d ->
  Forall
    (fun p =>
       forall (k : nat) (v : VectorLine),
         nth_error (vectors p) k = Some v ->
         v_name v = ("D" ++ Py.str (4 + k) ++ " Vector")%string
         /\ (exists gx gy gz color,
               nth_error (fig_data (figure d)) (S k)
               = Some (Surface gx gy gz (5 / 100) color false
                               ("Cone D" ++ Py.str (4 + k))%string))
         /\ radius (v_end v) <= max_radius cfg k (v_end v))
    (points_data self).
Proof.
  intros Hs Hrun Hd. apply Forall_forall. intros p Hin k v Hk.
  pose proof (run_points_built cfg ops self Hrun) as Hb.
  rewrite Forall_forall in Hb.
  destruct (built_shape cfg p (Hb p Hin))
    as (coords & base & ts & vs & _ & Hf & _ & Hlen & Hvec & Hts & Hvs).
  rewrite Hvec in Hk.
  assert (Hlt : (k < length vs)%nat)
    by (apply nth_error_Some; now rewrite Hk).
  assert (Hmax : (k < max_dims_used self)%nat).
  { rewrite (run_invariant cfg ops init_space self eq_refl Hrun).
    pose proof (max_folds_In _ _ Hin). lia. }
  destruct (nth_error (skipn 3 (truncated cfg coords)) k) as [m|] eqn:Em;
    [|apply nth_error_None in Em; lia].
  destruct (fold_dims_nth cfg _ _ _ _ _ Hf k m Em)
    as (prev & s & _ & _ & (status & Hc & _) & Hv).
  rewrite Hk in Hv. injection Hv as ->. cbn [v_name v_end].
  split; [reflexivity|]. split.
  - rewrite (draw_cone_trace cfg self d k Hd Hmax).
    unfold cone_surface. now eexists _, _, _, _.
  - now apply (clamp_contained cfg k _ (pos s) status Hs Hc).
Qed.

Lemma every_fold_has_its_cone_witness :
  positive_slopes demo_config
  /\ run demo_config init_space [OpAddPoint short_point "P"]
     = Ok (spec_add init_space short_point_built)
  /\ exists d gx gy gz color,
       draw demo_config (spec_add init_space short_point_built) = Some d
       /\ nth_error (fig_data (figure d)) 1
          = Some (Surface gx gy gz (5 / 100) color false "Cone D4").
Proof.
  split; [exact demo_slopes_positive|]. split; [exact run_short_point|].
  destruct draw_short_point as [d Hd].
  pose proof (every_fold_has_its_cone demo_config _ _ d demo_slopes_positive
                run_short_point Hd) as H.
  apply Forall_inv in H.
  destruct (H 0%nat _ eq_refl) as (_ & (gx & gy & gz & color & Hn) & _).
  exists d, gx, gy, gz, color. split; [exact Hd | exact Hn].
Defined.

(** X17. The marker [draw] puts for a point of the collection sits where
    its path ends: at the end of its last vector, or at its base position
    when it has no fold; before it come the lines of its vectors, in
    order. *)
Theorem marker_at_path_end (cfg : Config) (ops : list op)
  (self : HyperSpace) :
  run cfg init_space ops = Ok self ->
  Forall
    (fun p =>
       exists final : Vec3,
         point_traces p
         = Some (map (vector_trace p) (vectors p)
                 ++ [Scatter3d [vx final] [vy final] [vz final] "markers"
                               (MarkerStyle 8 "diamond")
                               (label p ++ " Final")%string])
         /\ (forall v, last_item (vectors p) = Some v -> final = v_end v)
         /\ (vectors p = [] ->
             exists s, trace p = [s] /\ final = pos s))
    (points_data self).
Proof.
  intro Hrun.
  eapply Forall_impl; [|exact (run_points_built cfg ops self Hrun)].
  intros p Hp.
  destruct (built_shape cfg p Hp)
    as (coords & base & ts & vs & _ & Hf & Hpos & Hlen & Hvec & _ & Hvs).
  destruct (fold_dims_vectors _ _ _ _ _ _ Hf) as [Hend _].
  destruct (last_item (trace p)) as [s|] eqn:El.
  2:{ apply last_item_none in El. rewrite El in Hlen. discriminate. }
  exists (pos s). unfold point_traces. rewrite El.
  split; [reflexivity|].
  assert (Hlast : last_item (map pos (trace p)) = Some (pos s))
    by (rewrite last_item_map, El; reflexivity).
  rewrite Hpos, last_item_cons, <- Hend, last_item_map, <- Hvec in Hlast.
  split.
  - intros v Hv. rewrite Hv in Hlast. simpl in Hlast. congruence.
  - intro He. rewrite He in Hlast. simpl in Hlast.
    rewrite Hvec in He. rewrite He in Hvs. simpl in Hvs.
    destruct (trace p) as [|s0 [|s1 rest]] eqn:Et;
      [discriminate | | simpl in Hlen; lia].
    exists s0. simpl in El. injection El as <-. now split.
Qed.

Lemma marker_at_path_end_witness :
  run demo_config init_space [OpAddPoint short_point "P"]
  = Ok (spec_add init_space short_point_built)
  /\ exists final : Vec3,
       point_traces short_point_built
       = Some (map (vector_trace short_point_built)
                   (vectors short_point_built)
               ++ [Scatter3d [vx final] [vy final] [vz final] "markers"
                             (MarkerStyle 8 "diamond") "P Final"])
       /\ final = {| vx := 8; vy := 0; vz := 2 |}.
Proof.
  split; [exact run_short_point|].
  pose proof (marker_at_path_end demo_config _ _ run_short_point) as H.
  apply Forall_inv in H. destruct H as (final & Hpt & Hv & _).
  exists final. split; [exact Hpt|].
  exact (Hv _ eq_refl).
Defined.

(** ** Python numbers in [add_point] *)

Lemma to_float64_value (v : pynum) :
  to_float64 v <> None -> to_float64 v = Some (value v).
Proof.
  destruct v as [n|x]; simpl; [|reflexivity].
  destruct (Z.abs n <? float_overflow_bound)%Z; [reflexivity|congruence].
Qed.

Lemma slice_to_map {A B : Type} (f : A -> B) (l : list A) (n : Z) :
  Py.slice_to (map f l) n = map f (Py.slice_to l n).
Proof.
  unfold Py.slice_to. rewrite length_map.
  destruct (n <? 0)%Z; apply firstn_map.
Qed.

Lemma truncated_map_value (cfg : Config) (coords : list pynum) :
  truncated cfg (map value coords) = map value (kept cfg coords).
Proof.
  unfold truncated, kept. rewrite length_map.
  destruct (Z.of_nat (length coords) >? limit_dims cfg)%Z;
    [apply slice_to_map | reflexivity].
Qed.

(** On magnitudes that convert, the loop on Python numbers is the loop on
    their values. *)
Lemma fold_dims_py_in_range (cfg : Config) (extra_dims : list pynum) :
  Forall (fun v => to_float64 v <> None) extra_dims ->
  forall (i : nat) (p : Vec3),
  fold_dims_py cfg i p extra_dims
  = match fold_dims cfg i p (map value extra_dims) with
    | Ok (ts, vs) => Folded ts vs
    | Err e => FoldUndefined e
    end.
Proof.
  induction 1 as [|v rest Hv _ IH]; intros i p; [reflexivity|].
  cbn [fold_dims_py fold_dims map]. rewrite (to_float64_value v Hv).
  destruct (clamp cfg i (candidate cfg i p (value v))) as [[q status]|e];
    cbn [bind]; [|reflexivity].
  rewrite IH.
  destruct (fold_dims cfg (S i) q (map value rest)) as [[ts vs]|e];
    reflexivity.
Qed.

(** The part of [add_point_py] after the truncation, on coordinates that
    convert, against the same part of [add_point] on their values. *)
Lemma converted_base (kc : list pynum) (j : nat) :
  Forall (fun v => to_float64 v <> None) kc -> (j < length kc)%nat ->
  to_float64 (nth j kc (PyInt 0)) = Some (nth j (map value kc) 0).
Proof.
  intros Hconv Hj. change 0 with (value (PyInt 0)). rewrite map_nth.
  apply to_float64_value. rewrite Forall_forall in Hconv.
  now apply Hconv, nth_In.
Qed.

(** On coordinates that convert, [add_point_py] is [add_point] on their
    values. *)
Lemma add_point_py_in_range (cfg : Config) (self : HyperSpace)
  (coords : list pynum) (label : string) :
  Forall (fun v => to_float64 v <> None) (kept cfg coords) ->
  add_point_py cfg self coords label
  = match add_point cfg self (map value coords) label with
    | Ok (self', out) => Returned self' out
    | Err e => Undefined e
    end.
Proof.
  intro Hconv. unfold add_point_py, add_point.
  rewrite length_map, slice_to_map.
  unfold kept in Hconv.
  destruct (Z.of_nat (length coords) >? limit_dims cfg)%Z;
    match type of Hconv with
    | Forall _ ?l => set (kc := l) in *
    end;
    rewrite length_map;
    (destruct (Nat.ltb_spec (length kc) 3) as [Hl|Hl]; [reflexivity|]);
    rewrite !(converted_base kc) by (assumption || lia);
    unfold build_point; rewrite skipn_map, length_map;
    rewrite fold_dims_py_in_range
      by (rewrite <- (firstn_skipn 3 kc) in Hconv;
          now apply Forall_app in Hconv);
    destruct (fold_dims cfg 0 _ (map value (skipn 3 kc))) as [[ts vs]|e];
    reflexivity.
Qed.

(** C6, as stated, fails for an int beyond the float64 range: the input
    [[8, 0, 0, 10 ** 400]] passes the check of line 35, and the conversion
    of its magnitude at line 58 raises [OverflowError], after line 45 has
    raised [max_dims_used] and before any point is appended. *)
Lemma huge_int_magnitude_raises :
  (3 <= length (kept demo_config huge_point))%nat
  /\ to_float64 (PyInt (10 ^ 400)) = None
  /\ add_point_py demo_config init_space huge_point "P"
     = Raised OverflowError {| points_data := []; max_dims_used := 1 |} [].
Proof.
  split; [unfold kept; simpl; lia|].
  assert (Hhuge : to_float64 (PyInt (10 ^ 400)) = None).
  { unfold to_float64.
    replace (Z.abs (10 ^ 400) <? float_overflow_bound)%Z with false
      by (vm_compute; reflexivity).
    reflexivity. }
  split; [exact Hhuge|].
  unfold add_point_py, huge_point.
  cbn [length Z.of_nat Pos.of_succ_nat Pos.succ limit_dims demo_config
       Z.gtb Z.compare Pos.compare Pos.compare_cont Nat.ltb Nat.leb
       nth skipn].
  assert (Hsmall : forall n, (Z.abs n <? float_overflow_bound)%Z = true ->
                     to_float64 (PyInt n) = Some (IZR n))
    by (intros n Hn; unfold to_float64; now rewrite Hn).
  rewrite (Hsmall 8%Z), (Hsmall 0%Z) by (vm_compute; reflexivity).
  cbn [fold_dims_py]. rewrite Hhuge. reflexivity.
Qed.

(** C6, amended. Once the check of line 35 has passed, folding has a value
    for all coordinates that are floats or ints within the float64 range,
    zero and negative magnitudes included (the slopes being positive): no
    conversion overflows, the point is added, and no division by zero
    arises.  The clamp divides only by a positive radius, and a candidate
    of radius zero is left as it is. *)
Theorem folding_total_in_float64_range (cfg : Config) (self : HyperSpace)
  (coords : list pynum) (label : string) :
  positive_slopes cfg ->
  (3 <= length (kept cfg coords))%nat ->
  Forall (fun v => to_float64 v <> None) (kept cfg coords) ->
  (exists point,
      add_point_py cfg self coords label
      = Returned (spec_add self point)
                 (notices cfg (map value coords) label)
      /\ add_point cfg self (map value coords) label
         = Ok (spec_add self point, notices cfg (map value coords) label))
  /\ (forall (i : nat) (p : Vec3) (extra_dims : list R),
        fold_dims cfg i p extra_dims <> Err ZeroDivision)
  /\ (forall (i : nat) (c : Vec3),
        clamp cfg i c <> Err ZeroDivision
        /\ (max_radius cfg i c < radius c -> 0 < radius c)
        /\ (radius c = 0 -> clamp cfg i c = Ok (c, ""%string))).
Proof.
  intros Hs Hl Hconv. split; [|split].
  - assert (Hl' : (3 <= length (truncated cfg (map value coords)))%nat)
      by (now rewrite truncated_map_value, length_map).
    destruct (add_point_total cfg self (map value coords) label Hs Hl')
      as (point & _ & Ha).
    exists point. split; [|exact Ha].
    now rewrite add_point_py_in_range, Ha.
  - intros i p extra_dims.
    destruct (fold_dims_total cfg extra_dims Hs i p) as (ts & vs & ->).
    discriminate.
  - intros i c.
    pose proof (max_radius_nonneg cfg i c Hs) as Hm.
    split; [|split].
    + destruct (clamp_cases cfg i c Hs) as [[_ ->]|(_ & _ & ->)]; discriminate.
    + lra.
    + intro Hz. apply clamp_kept. lra.
Qed.

Lemma folding_total_in_float64_range_witness :
  positive_slopes demo_config
  /\ (3 <= length (kept demo_config mixed_point))%nat
  /\ Forall (fun v => to_float64 v <> None) (kept demo_config mixed_point)
  /\ exists point,
       add_point_py demo_config init_space mixed_point "Valid Point"
       = Returned (spec_add init_space point)
                  (notices demo_config (map value mixed_point) "Valid Point").
Proof.
  assert (Hl : (3 <= length (kept demo_config mixed_point))%nat)
    by (unfold kept; simpl; lia).
  assert (Hconv : Forall (fun v => to_float64 v <> None)
                         (kept demo_config mixed_point)).
  { assert (Hsmall : forall n, (Z.abs n <? float_overflow_bound)%Z = true ->
                       to_float64 (PyInt n) <> None)
      by (intros n Hn; unfold to_float64; rewrite Hn; discriminate).
    unfold kept, mixed_point; simpl.
    repeat constructor;
      try (apply Hsmall; vm_compute; reflexivity); discriminate. }
  split; [exact demo_slopes_positive|]. split; [exact Hl|].
  split; [exact Hconv|].
  destruct (proj1 (folding_total_in_float64_range demo_config init_space
                     mixed_point "Valid Point" demo_slopes_positive Hl Hconv))
    as (point & Hpy & _).
  now exists point.
Defined.
